(** * Robonomics utility scripts: a shallow embedding

    Three Python scripts are modelled here:

    - [bin/digitaltwin2mqtt/mqttc.py], the MQTT subscriber;
    - [examples/turtlesim_liability/robonomics/genbag_string.py] and
      [examples/turtlesim_liability/robonomics/genbag_twist.py], the two
      bag generators.

    The scripts are straight-line Python that calls into [paho.mqtt] and
    [rosbag].  Their statements are written below in a small state and
    exception monad; what the libraries do is kept to what the scripts
    can observe: the calls they receive, in order, with their arguments,
    and whether a call raises. *)

From Stdlib Require Import ZArith List String Ascii Bool Lia.
From Stdlib Require Import QArith Qabs Floats Uint63 DecimalString Sorted.
From Stdlib Require Import DecimalPos DecimalZ.
From Stdlib.Strings Require Import Byte.
Import ListNotations.

Set Warnings "-inexact-float".
Local Open Scope string_scope.
Local Open Scope list_scope.
Local Open Scope Z_scope.

(** ** Exceptions and state *)

Inductive Exn : Type :=
| IndexError
| OverflowError
| NameError
| TypeError
| UnicodeDecodeError
| UnicodeEncodeError
| LibraryError (what : string).

Inductive Outcome (A : Type) : Type :=
| Ok (a : A)
| Raise (e : Exn).

Arguments Ok {A} a.
Arguments Raise {A} e.

(** A statement run in world [W]: it ends normally with a value or raises,
    and leaves a world behind either way. *)
Definition M (W A : Type) : Type := W -> Outcome A * W.

Definition ret {W A} (a : A) : M W A := fun w => (Ok a, w).

Definition raise {W A} (e : Exn) : M W A := fun w => (Raise e, w).

Definition bind {W A B} (m : M W A) (k : A -> M W B) : M W B :=
  fun w =>
    match m w with
    | (Ok a, w') => k a w'
    | (Raise e, w') => (Raise e, w')
    end.

Definition get {W} : M W W := fun w => (Ok w, w).

Definition modify {W} (f : W -> W) : M W unit := fun w => (Ok tt, f w).

Declare Scope py_scope.
Delimit Scope py_scope with py.

Notation "x <- m ;; k" := (bind m (fun x => k))
  (at level 100, m at next level, right associativity) : py_scope.
Notation "m ;; k" := (bind m (fun _ => k))
  (at level 100, right associativity) : py_scope.
Notation "' p <- m ;; k" := (bind m (fun x => let p := x in k))
  (at level 100, p pattern, m at next level, right associativity) : py_scope.

Local Open Scope py_scope.

(** [try: body finally: fin].  [fin] runs whatever [body] did; an exception
    of [fin] replaces the one of [body]. *)
Definition try_finally {W A} (body : M W A) (fin : M W unit) : M W A :=
  fun w =>
    match body w with
    | (r, w') =>
        match fin w' with
        | (Ok _, w'') => (r, w'')
        | (Raise e, w'') => (Raise e, w'')
        end
    end.

(** [for i in xs: body i], left to right, stopping at the first exception. *)
Fixpoint for_each {W A} (xs : list A) (body : A -> M W unit) : M W unit :=
  match xs with
  | [] => ret tt
  | x :: xs' => body x ;; for_each xs' body
  end.

(** [range(lo, hi)] *)
Definition range (lo hi : Z) : list Z :=
  map (fun k => lo + Z.of_nat k) (seq 0 (Z.to_nat (hi - lo))).

(** [xs[i]] for [0 <= i]: [IndexError] past the end. *)
Definition index {W A} (xs : list A) (i : nat) : M W A :=
  match nth_error xs i with
  | Some x => ret x
  | None => raise IndexError
  end.

Definition len {A} (xs : list A) : Z := Z.of_nat (List.length xs).

(** ** Python numbers *)

Module PyNum.

Inductive t : Type :=
| PyInt (z : Z)
| PyFloat (f : float).

(** [float(z)]: the nearest binary64 value, ties to even; an integer too
    large for a finite float raises [OverflowError]. *)
Definition float_of_int (z : Z) : option float :=
  let f := SF2Prim (binary_normalize prec emax z 0 false) in
  if PrimFloat.is_infinity f then None else Some f.

(** [a + b] and [a * b]: integers stay integers, a float operand makes
    the other one a float first. *)
Definition add (a b : t) : option t :=
  match a, b with
  | PyInt x, PyInt y => Some (PyInt (x + y))
  | PyInt x, PyFloat g =>
      option_map (fun f => PyFloat (PrimFloat.add f g)) (float_of_int x)
  | PyFloat f, PyInt y =>
      option_map (fun g => PyFloat (PrimFloat.add f g)) (float_of_int y)
  | PyFloat f, PyFloat g => Some (PyFloat (PrimFloat.add f g))
  end.

Definition mul (a b : t) : option t :=
  match a, b with
  | PyInt x, PyInt y => Some (PyInt (x * y))
  | PyInt x, PyFloat g =>
      option_map (fun f => PyFloat (PrimFloat.mul f g)) (float_of_int x)
  | PyFloat f, PyInt y =>
      option_map (fun g => PyFloat (PrimFloat.mul f g)) (float_of_int y)
  | PyFloat f, PyFloat g => Some (PyFloat (PrimFloat.mul f g))
  end.

(** The rational a finite binary64 value stands for. *)
Definition Q_of_spec_float (f : spec_float) : option Q :=
  match f with
  | S754_zero _ => Some 0%Q
  | S754_finite s m e =>
      Some (inject_Z (if s then Z.neg m else Z.pos m) * Qpower 2 e)%Q
  | S754_infinity _ | S754_nan => None
  end.

(** The exact value of a number; none for an infinity or a NaN. *)
Definition value (a : t) : option Q :=
  match a with
  | PyInt z => Some (inject_Z z)
  | PyFloat f => Q_of_spec_float (Prim2SF f)
  end.

(** [a < b] on exact values, as Python compares finite numbers (every
    number of the scripts is finite). *)
Definition lt (a b : t) : Prop :=
  match value a, value b with
  | Some p, Some q => (p < q)%Q
  | _, _ => False
  end.

Definition ltb (a b : t) : bool :=
  match value a, value b with
  | Some p, Some q =>
      match (p ?= q)%Q with Lt => true | _ => false end
  | _, _ => false
  end.

End PyNum.


(** ** Python values and [str] *)

Module PyVal.

Inductive t : Type :=
| VNone
| VInt (z : Z)
| VStr (s : string)
| VBytes (b : list byte).

Definition squote : ascii := "039"%char.
Definition dquote : ascii := "034"%char.
Definition backslash : ascii := "092"%char.

Definition hexdigits : string := "0123456789abcdef".

Definition hexdigit (n : N) : ascii :=
  match String.get (N.to_nat n) hexdigits with
  | Some c => c
  | None => "0"%char
  end.

Definition occurs (c : ascii) (b : list byte) : bool :=
  existsb (fun x => Ascii.eqb (ascii_of_byte x) c) b.

(** The quote of a bytes literal: ['], or ["] when the bytes hold a ['] and
    no ["]. *)
Definition bytes_quote (b : list byte) : ascii :=
  if occurs squote b && negb (occurs dquote b) then dquote else squote.

(** One byte inside a bytes literal. *)
Definition bytes_repr_byte (quote : ascii) (x : byte) : string :=
  let c := ascii_of_byte x in
  let n := Byte.to_N x in
  if Ascii.eqb c quote || Ascii.eqb c backslash then
    String backslash (String c "")
  else if (n =? 9)%N then String backslash "t"
  else if (n =? 10)%N then String backslash "n"
  else if (n =? 13)%N then String backslash "r"
  else if (n <? 32)%N || (127 <=? n)%N then
    String backslash
      (String "x" (String (hexdigit (n / 16)) (String (hexdigit (n mod 16)) "")))
  else String c "".

(** [repr(b)] of a bytes value, which is also its [str(b)]. *)
Definition bytes_repr (b : list byte) : string :=
  let quote := bytes_quote b in
  String "b" (String quote
    (String.concat "" (map (bytes_repr_byte quote) b) ++ String quote "")%string).

(** [str(v)] *)
Definition str (v : t) : string :=
  match v with
  | VNone => "None"
  | VInt z => NilZero.string_of_int (Z.to_int z)
  | VStr s => s
  | VBytes b => bytes_repr b
  end.

(** The value of a hexadecimal digit. *)
Definition hexval (c : ascii) : option N :=
  let n := N_of_ascii c in
  if (48 <=? n)%N && (n <=? 57)%N then Some (n - 48)%N
  else if (97 <=? n)%N && (n <=? 102)%N then Some (n - 87)%N
  else None.

(** Reading the first byte back from the inside of a bytes literal: the
    byte and what follows it. *)
Definition bytes_unrepr_byte (s : string) : option (byte * string) :=
  match s with
  | EmptyString => None
  | String c s1 =>
      if Ascii.eqb c backslash then
        match s1 with
        | EmptyString => None
        | String d s2 =>
            if Ascii.eqb d "t" then Some (x09, s2)
            else if Ascii.eqb d "n" then Some (x0a, s2)
            else if Ascii.eqb d "r" then Some (x0d, s2)
            else if Ascii.eqb d "x" then
              match s2 with
              | String h (String l s3) =>
                  match hexval h, hexval l with
                  | Some a, Some b =>
                      option_map (fun x => (x, s3)) (Byte.of_N (16 * a + b))
                  | _, _ => None
                  end
              | _ => None
              end
            else Some (byte_of_ascii d, s2)
        end
      else Some (byte_of_ascii c, s1)
  end.

End PyVal.

(** [s] occurs in [t] as a run of consecutive characters. *)
Definition substring_of (s t : string) : Prop :=
  exists pre post, t = (pre ++ s ++ post)%string.

(** ** Text: UTF-8 and the encoding of the output stream *)

Module Text.

(** A text is kept as the bytes of its UTF-8 form. *)

Definition between (lo hi : N) (b : byte) : bool :=
  ((lo <=? Byte.to_N b) && (Byte.to_N b <=? hi))%N.

Definition continuation (b : byte) : bool := between 128 191 b.

(** Well-formed UTF-8, as a strict decoder takes it: no stray or missing
    continuation byte, no overlong form, no surrogate, nothing above
    U+10FFFF. *)
Fixpoint well_formed (bs : list byte) : bool :=
  match bs with
  | [] => true
  | b0 :: r0 =>
      if between 0 127 b0 then well_formed r0
      else
        match r0 with
        | [] => false
        | b1 :: r1 =>
            if between 194 223 b0 then continuation b1 && well_formed r1
            else
              match r1 with
              | [] => false
              | b2 :: r2 =>
                  if between 224 224 b0 then
                    between 160 191 b1 && continuation b2 && well_formed r2
                  else if between 225 236 b0 || between 238 239 b0 then
                    continuation b1 && continuation b2 && well_formed r2
                  else if between 237 237 b0 then
                    between 128 159 b1 && continuation b2 && well_formed r2
                  else
                    match r2 with
                    | [] => false
                    | b3 :: r3 =>
                        if between 240 240 b0 then
                          between 144 191 b1 && continuation b2
                          && continuation b3 && well_formed r3
                        else if between 241 243 b0 then
                          continuation b1 && continuation b2
                          && continuation b3 && well_formed r3
                        else if between 244 244 b0 then
                          between 128 143 b1 && continuation b2
                          && continuation b3 && well_formed r3
                        else false
                    end
              end
        end
  end.

(** [bs.decode('utf-8')]: the text, or nothing where the decoder raises
    [UnicodeDecodeError]. *)
Definition decode (bs : list byte) : option string :=
  if well_formed bs then Some (string_of_list_byte bs) else None.

(** The encoding of [sys.stdout], among the usual ones. *)
Inductive Encoding : Type := enc_ascii | enc_latin_1 | enc_utf_8.

(** A byte of a text whose character the encoding has.  ASCII has the
    characters below U+0080, one byte each.  Latin-1 has those below
    U+0100, whose UTF-8 forms start with a byte below 196, while every
    other character starts with a byte from 196 on.  UTF-8 has them
    all. *)
Definition encodes (enc : Encoding) (c : ascii) : bool :=
  match enc with
  | enc_ascii => (N_of_ascii c <? 128)%N
  | enc_latin_1 => (N_of_ascii c <? 196)%N
  | enc_utf_8 => true
  end.

(** The stream can take the text: writing it raises no
    [UnicodeEncodeError]. *)
Definition encodable (enc : Encoding) (text : string) : bool :=
  forallb (encodes enc) (list_ascii_of_string text).

Definition LF : ascii := "010"%char.

(** The text holds no line feed: written and followed by a newline, it is
    one line of output. *)
Definition single_line (text : string) : bool :=
  negb (existsb (Ascii.eqb LF) (list_ascii_of_string text)).

(** The text is made of printable ASCII characters only. *)
Definition printable (text : string) : bool :=
  forallb (fun c => (32 <=? N_of_ascii c) && (N_of_ascii c <=? 126))%N
          (list_ascii_of_string text).

End Text.

(** ** bin/digitaltwin2mqtt/mqttc.py *)

Module Mqttc.

Import PyVal Text.

(** A received message, as the library holds it: the topic and the
    payload are the bytes of the packet. *)
Record MQTTMessage : Type := { raw_topic : list byte; payload : list byte }.

(** [msg.topic]: the library decodes the topic as UTF-8 each time it is
    read, and raises where it is not. *)
Definition topic {W} (msg : MQTTMessage) : M W string :=
  match decode (raw_topic msg) with
  | Some t => ret t
  | None => raise UnicodeDecodeError
  end.

(** What the broker sends while the loop runs: the answer to a connection
    attempt, with its integer result code, or a published message. *)
Inductive Packet : Type :=
| CONNACK (flags : PyVal.t) (rc : Z)
| PUBLISH (msg : MQTTMessage).

(** The two functions of the script, as the values stored in the client's
    callback attributes. *)
Inductive Callback : Type := on_connect_ref | on_message_ref.

(** A call the script makes on the client. *)
Inductive ClientCall : Type :=
| Call_subscribe (topic : string)
| Call_connect (host port : PyVal.t) (keepalive : Z)
| Call_loop_forever.

(** The world of the subscriber: the texts written by the calls of [print]
    so far, each of them followed by a newline on the stream; the
    client's two callback attributes; the calls the client has
    received. *)
Record World : Type := {
  stdout : list string;
  client_on_connect : option Callback;
  client_on_message : option Callback;
  calls : list ClientCall
}.

(** [mqtt.Client()]: no callback set, nothing called yet. *)
Definition fresh (out : list string) : World :=
  {| stdout := out; client_on_connect := None; client_on_message := None;
     calls := [] |}.

(** [print(text)] on a stream of encoding [enc]: the text is written, or
    [UnicodeEncodeError] is raised and nothing is. *)
Definition print (enc : Encoding) (text : string) : M World unit :=
  if encodable enc text then
    modify (fun w =>
      {| stdout := stdout w ++ [text];
         client_on_connect := client_on_connect w;
         client_on_message := client_on_message w;
         calls := calls w |})
  else raise UnicodeEncodeError.

Definition log_call (c : ClientCall) : M World unit :=
  modify (fun w =>
    {| stdout := stdout w;
       client_on_connect := client_on_connect w;
       client_on_message := client_on_message w;
       calls := calls w ++ [c] |}).

Definition set_on_connect (f : Callback) : M World unit :=
  modify (fun w =>
    {| stdout := stdout w;
       client_on_connect := Some f;
       client_on_message := client_on_message w;
       calls := calls w |}).

Definition set_on_message (f : Callback) : M World unit :=
  modify (fun w =>
    {| stdout := stdout w;
       client_on_connect := client_on_connect w;
       client_on_message := Some f;
       calls := calls w |}).

(** [client.subscribe(topic)]: the request is handed to the library, whose
    result the script drops. *)
Definition client_subscribe (topic : string) : M World unit :=
  log_call (Call_subscribe topic).

(** [def on_connect(client, userdata, flags, rc)] *)
Definition on_connect (enc : Encoding) (userdata flags : PyVal.t) (rc : Z)
  : M World unit :=
  print enc ("Connected with result code " ++ str (VInt rc))%string ;;
  client_subscribe "digitaltwin".

(** [def on_message(client, userdata, msg)] *)
Definition on_message (enc : Encoding) (userdata : PyVal.t) (msg : MQTTMessage)
  : M World unit :=
  t <- topic msg ;;
  print enc ("at topic" ++ t ++ " data: " ++ str (VBytes (payload msg)))%string.

(** What the script is run with: the command line, the encoding of
    [sys.stdout], whether the broker can be reached, and the packets that
    arrive while the loop runs. *)
Record Env : Type := {
  sys_argv : list string;
  stdout_encoding : Encoding;
  connect_raises : bool;
  net : list Packet
}.

(** [client.connect(host, port, keepalive)] *)
Definition client_connect (env : Env) (host port : PyVal.t) (keepalive : Z)
  : M World unit :=
  log_call (Call_connect host port keepalive) ;;
  if connect_raises env then raise (LibraryError "connect") else ret tt.

(** The library hands a packet to the callback attribute that is set for
    it, with the client's user data, which is [None] here.  An exception
    of the callback is not caught. *)
Definition dispatch (enc : Encoding) (p : Packet) : M World unit :=
  w <- get ;;
  match p with
  | CONNACK flags rc =>
      match client_on_connect w with
      | Some on_connect_ref => on_connect enc VNone flags rc
      | Some on_message_ref => raise TypeError
      | None => ret tt
      end
  | PUBLISH msg =>
      match client_on_message w with
      | Some on_message_ref => on_message enc VNone msg
      | Some on_connect_ref => raise TypeError
      | None => ret tt
      end
  end.

(** [client.loop_forever()], over the packets of a finite stretch of the
    connection: an exception of a callback ends the loop and leaves it. *)
Definition client_loop_forever (env : Env) : M World unit :=
  log_call Call_loop_forever ;;
  for_each (net env) (dispatch (stdout_encoding env)).

(** The statements of the module, from [client = mqtt.Client()] on. *)
Definition script (env : Env) : M World unit :=
  let argv := sys_argv env in
  set_on_connect on_connect_ref ;;
  set_on_message on_message_ref ;;
  let mqtt_srv := VStr "localhost" in
  let mqtt_port := VInt 1883 in
  mqtt_srv <- (if (1 <? len argv)%Z
               then a1 <- index argv 1 ;; ret (VStr a1)
               else ret mqtt_srv) ;;
  ' (mqtt_srv, mqtt_port) <-
      (if (2 <? len argv)%Z
       then a1 <- index argv 1 ;; a2 <- index argv 2 ;;
            ret (VStr a1, VStr a2)
       else ret (mqtt_srv, mqtt_port)) ;;
  client_connect env mqtt_srv mqtt_port 60 ;;
  client_loop_forever env.

Definition run (env : Env) : Outcome unit * World := script env (fresh []).

(** The topics of the subscribe calls, in order. *)
Definition subscriptions (cs : list ClientCall) : list string :=
  flat_map (fun c => match c with Call_subscribe t => [t] | _ => [] end) cs.

(** The arguments of the connect calls, in order. *)
Definition connections (cs : list ClientCall) : list (PyVal.t * PyVal.t * Z) :=
  flat_map (fun c => match c with
                     | Call_connect h p k => [(h, p, k)]
                     | _ => []
                     end) cs.

(** The connection answers among the packets. *)
Definition connacks (ps : list Packet) : nat :=
  List.length (filter (fun p => match p with CONNACK _ _ => true | _ => false end) ps).

(** The text the callback of a packet prints, or the exception it raises
    instead: a topic that is not UTF-8, or one the stream cannot take. *)
Definition packet_text (enc : Encoding) (p : Packet) : Outcome string :=
  match p with
  | CONNACK _ rc => Ok ("Connected with result code " ++ str (VInt rc))%string
  | PUBLISH msg =>
      match decode (raw_topic msg) with
      | None => Raise UnicodeDecodeError
      | Some t =>
          if encodable enc t
          then Ok ("at topic" ++ t ++ " data: " ++ str (VBytes (payload msg)))%string
          else Raise UnicodeEncodeError
      end
  end.


(** The packets whose callback returns, up to the first one that raises;
    and the exception of that one, if any. *)
Fixpoint served (enc : Encoding) (ps : list Packet) : list Packet :=
  match ps with
  | [] => []
  | p :: ps' =>
      match packet_text enc p with
      | Ok _ => p :: served enc ps'
      | Raise _ => []
      end
  end.

Fixpoint stopped (enc : Encoding) (ps : list Packet) : option Exn :=
  match ps with
  | [] => None
  | p :: ps' =>
      match packet_text enc p with
      | Ok _ => stopped enc ps'
      | Raise e => Some e
      end
  end.

(** The texts printed for the packets served. *)
Definition texts (enc : Encoding) (ps : list Packet) : list string :=
  flat_map (fun p => match packet_text enc p with
                     | Ok t => [t]
                     | Raise _ => []
                     end) (served enc ps).

Definition packet_calls (p : Packet) : list ClientCall :=
  match p with
  | CONNACK _ _ => [Call_subscribe "digitaltwin"]
  | PUBLISH _ => []
  end.

(** The broker the command line names: host and port as handed to
    [connect]. *)
Definition target (argv : list string) : PyVal.t * PyVal.t :=
  match argv with
  | _ :: host :: port :: _ => (VStr host, VStr port)
  | [_; host] => (VStr host, VInt 1883)
  | _ => (VStr "localhost", VInt 1883)
  end.

(** The message callback prints one line, and the line holds the topic and
    the payload of the message. *)
Definition prints_topic_and_payload (enc : Encoding) (msg : MQTTMessage) : Prop :=
  forall w, exists text,
    stdout (snd (on_message enc VNone msg w)) = stdout w ++ [text]
    /\ single_line text = true
    /\ substring_of (string_of_list_byte (raw_topic msg)) text
    /\ substring_of (string_of_list_byte (payload msg)) text.

(** A byte the bytes literal quoted with [q] shows as itself: printable
    ASCII other than the backslash and [q]. *)
Definition kept (q : ascii) (x : byte) : bool :=
  let n := Byte.to_N x in
  (32 <=? n)%N && (n <=? 126)%N && negb (n =? 92)%N
  && negb (Ascii.eqb (ascii_of_byte x) q).

(** No byte of the payload needs an escape in its literal. *)
Definition shown_verbatim (b : list byte) : bool :=
  forallb (kept (bytes_quote b)) b.

(** The world once the callbacks are set. *)
Definition listening (out : list string) (cs : list ClientCall) : World :=
  {| stdout := out; client_on_connect := Some on_connect_ref;
     client_on_message := Some on_message_ref; calls := cs |}.

End Mqttc.

(** ** examples/turtlesim_liability/robonomics/genbag_*.py *)

Module Genbag.

Import PyNum.

(** [geometry_msgs/Vector3] *)
Record Vector3_t : Type := Vector3 { x : PyNum.t; y : PyNum.t; z : PyNum.t }.

(** [Vector3()]: with no argument the message library sets the three
    float64 fields to zero. *)
Definition Vector3_default : Vector3_t :=
  Vector3 (PyFloat 0) (PyFloat 0) (PyFloat 0).

(** The messages of the two scripts: [std_msgs/String] and
    [geometry_msgs/Twist]. *)
Inductive Msg : Type :=
| String_ (data : string)
| Twist (linear angular : Vector3_t).

(** [rospy.Time.from_sec(t)], kept as the number of seconds it is given. *)
Record Time : Type := from_sec { secs : PyNum.t }.

(** A message object is reached through a reference into the heap: the
    variables [msg], [msg1] and [msg2] of the scripts hold references. *)
Definition ref : Type := nat.

(** A call on the [rosbag] library.  A write is logged with the reference it
    was given and the contents the object had at that moment. *)
Inductive BagCall : Type :=
| Call_Bag (path mode : string)
| Call_write (topic : string) (msg : ref) (contents : Msg) (t : Time)
| Call_close.

(** The world of a generator: the message objects, the calls made on the
    library, and the records the writes that returned have put in the bag. *)
Record World : Type := {
  heap : list Msg;
  calls : list BagCall;
  written : list (string * Msg * Time)
}.

Definition empty : World := {| heap := []; calls := []; written := [] |}.

(** Which library calls fail: opening the bag, the [k]-th call of
    [bag.write] (from 0), closing the bag. *)
Record Env : Type := {
  Bag_raises : bool;
  write_raises : nat -> bool;
  close_raises : bool
}.

Definition log_call (c : BagCall) : M World unit :=
  modify (fun w =>
    {| heap := heap w; calls := calls w ++ [c]; written := written w |}).

Definition is_write (c : BagCall) : bool :=
  match c with Call_write _ _ _ _ => true | _ => false end.

Definition is_close (c : BagCall) : bool :=
  match c with Call_close => true | _ => false end.

(** Building a message object: a fresh reference to the given contents. *)
Definition new (m : Msg) : M World ref :=
  fun w =>
    (Ok (List.length (heap w)),
     {| heap := heap w ++ [m]; calls := calls w; written := written w |}).

(** Assigning to a field of a message object: the contents at its
    reference are replaced, for every variable that holds the reference.
    Neither script has such a statement; it is here to say what a mutation
    would be. *)
Definition setattr (r : ref) (m : Msg) : M World unit :=
  fun w =>
    match nth_error (heap w) r with
    | Some _ =>
        (Ok tt,
         {| heap := firstn r (heap w) ++ m :: skipn (S r) (heap w);
            calls := calls w; written := written w |})
    | None => (Raise NameError, w)
    end.

(** [rosbag.Bag(path, mode)] *)
Definition rosbag_Bag (env : Env) (path mode : string) : M World unit :=
  log_call (Call_Bag path mode) ;;
  if Bag_raises env then raise (LibraryError "Bag") else ret tt.

(** [bag.write(topic, msg, t=t)]: the library reads the object [msg] refers
    to and, unless it fails, appends its contents to the bag. *)
Definition bag_write (env : Env) (topic : string) (msg : ref) (t : Time)
  : M World unit :=
  w <- get ;;
  match nth_error (heap w) msg with
  | None => raise NameError
  | Some m =>
      let k := List.length (filter is_write (calls w)) in
      log_call (Call_write topic msg m t) ;;
      if write_raises env k then raise (LibraryError "write")
      else modify (fun w =>
             {| heap := heap w; calls := calls w;
                written := written w ++ [(topic, m, t)] |})
  end.

(** [bag.close()] *)
Definition bag_close (env : Env) : M World unit :=
  log_call Call_close ;;
  if close_raises env then raise (LibraryError "close") else ret tt.

(** An arithmetic result, or [OverflowError]. *)
Definition num {W} (r : option PyNum.t) : M W PyNum.t :=
  match r with
  | Some v => ret v
  | None => raise OverflowError
  end.

(** The [try] block of [genbag_string.py]. *)
Definition genbag_string_try (env : Env) (msg : ref) : M World unit :=
  bag_write env "/turtle1/cmd" msg (from_sec (PyFloat 0.1)).

(** The statements of [genbag_string.py]. *)
Definition genbag_string (env : Env) : M World unit :=
  rosbag_Bag env "./objective_string.bag" "w" ;;
  msg <- new (String_ "Dear turtle, please make a circle. Thanks!") ;;
  try_finally (genbag_string_try env msg) (bag_close env).

(** The [try] block of [genbag_twist.py]. *)
Definition genbag_twist_try (env : Env) (msg1 msg2 : ref) : M World unit :=
  bag_write env "/turtle1/cmd_vel" msg1 (from_sec (PyInt 0)) ;;
  for_each (range 0 239) (fun i =>
    d <- num (mul (PyFloat 0.01) (PyInt i)) ;;
    t <- num (add (PyInt 1) d) ;;
    bag_write env "/turtle1/cmd_vel" msg2 (from_sec t)) ;;
  bag_write env "/turtle1/cmd_vel" msg1 (from_sec (PyInt 5)).

(** The statements of [genbag_twist.py]. *)
Definition genbag_twist (env : Env) : M World unit :=
  rosbag_Bag env "./twist.bag" "w" ;;
  msg1 <- new (Twist Vector3_default Vector3_default) ;;
  msg2 <- new (Twist (Vector3 (PyInt 2) (PyInt 0) (PyInt 0))
                     (Vector3 (PyInt 0) (PyInt 0) (PyInt 2))) ;;
  try_finally (genbag_twist_try env msg1 msg2) (bag_close env).

Definition run (script : Env -> M World unit) (env : Env)
  : Outcome unit * World :=
  script env empty.

(** Every library call succeeds. *)
Definition no_failure : Env :=
  {| Bag_raises := false; write_raises := fun _ => false;
     close_raises := false |}.

(** The two message objects of [genbag_twist.py] and the one of
    [genbag_string.py], as built. *)
Definition twist_msg1 : Msg := Twist Vector3_default Vector3_default.

Definition twist_msg2 : Msg :=
  Twist (Vector3 (PyInt 2) (PyInt 0) (PyInt 0))
        (Vector3 (PyInt 0) (PyInt 0) (PyInt 2)).

Definition string_msg : Msg :=
  String_ "Dear turtle, please make a circle. Thanks!".

(** A call that is a write of what the heap [h] holds at the reference. *)
Definition write_of (h : list Msg) (c : BagCall) : Prop :=
  match c with
  | Call_write _ r m _ => nth_error h r = Some m
  | _ => False
  end.

(** A statement that leaves the heap as it is and calls the library only
    to write messages of the heap. *)
Definition writes_only {A} (m : M World A) : Prop :=
  forall w, exists cs,
    heap (snd (m w)) = heap w
    /\ calls (snd (m w)) = calls w ++ cs
    /\ Forall (write_of (heap w)) cs.

(** The calls hold exactly one close, and it is the last call. *)
Definition closed_once_at_end (cs : list BagCall) : Prop :=
  List.length (filter is_close cs) = 1%nat
  /\ last cs (Call_Bag "" "") = Call_close.

(** The contents the library was shown by the writes of reference [r]. *)
Definition contents_written (r : ref) (cs : list BagCall) : list Msg :=
  flat_map (fun c => match c with
                     | Call_write _ r' m _ => if Nat.eqb r r' then [m] else []
                     | _ => []
                     end) cs.

(** [float(i)] for a loop index. *)
Definition float_of_nat (i : nat) : float :=
  PrimFloat.of_uint63 (Uint63.of_Z (Z.of_nat i)).

(** Every number of the list is below all the numbers after it. *)
Fixpoint increasingb (l : list PyNum.t) : bool :=
  match l with
  | [] => true
  | a :: l' => forallb (PyNum.ltb a) l' && increasingb l'
  end.

(** The number [t] is within [eps] of the rational [q]. *)
Definition within (eps q : Q) (t : PyNum.t) : Prop :=
  exists v, PyNum.value t = Some v /\ (Qabs (v - q) <= eps)%Q.

Definition withinb (eps q : Q) (t : PyNum.t) : bool :=
  match PyNum.value t with
  | Some v => Qle_bool (Qabs (v - q)) eps
  | None => false
  end.

(** The timestamps of the records of a bag, in order. *)
Definition stamps (records : list (string * Msg * Time)) : list PyNum.t :=
  map (fun r => secs (snd r)) records.

(** How many of [n] calls of [bag.write], the first of them numbered [k],
    return before one raises. *)
Fixpoint returned (wr : nat -> bool) (k n : nat) : nat :=
  match n with
  | O => O
  | S n' => if wr k then O else S (returned wr (S k) n')
  end.

(** One write of a [try] block: the topic, the reference handed over, the
    contents of the object, the timestamp. *)
Record Item : Type := {
  item_topic : string;
  item_ref : ref;
  item_msg : Msg;
  item_t : Time
}.

Definition write_item (env : Env) (it : Item) : M World unit :=
  bag_write env (item_topic it) (item_ref it) (item_t it).

Definition call_of (it : Item) : BagCall :=
  Call_write (item_topic it) (item_ref it) (item_msg it) (item_t it).

Definition record_of (it : Item) : string * Msg * Time :=
  (item_topic it, item_msg it, item_t it).

(** [1 + 0.01*i], or nothing when the arithmetic overflows. *)
Definition loop_stamp (i : Z) : option PyNum.t :=
  match mul (PyFloat 0.01) (PyInt i) with
  | Some d => add (PyInt 1) d
  | None => None
  end.

(** The timestamps of the loop of [genbag_twist.py]. *)
Definition loop_stamps : list PyNum.t :=
  map (fun i => PyFloat (1 + 0.01 * float_of_nat i)) (seq 0 239).

(** The writes of the [try] block of [genbag_twist.py], in order. *)
Definition twist_items : list Item :=
  [{| item_topic := "/turtle1/cmd_vel"; item_ref := 0%nat;
      item_msg := twist_msg1; item_t := from_sec (PyInt 0) |}]
  ++ map (fun t => {| item_topic := "/turtle1/cmd_vel"; item_ref := 1%nat;
                      item_msg := twist_msg2; item_t := from_sec t |})
         loop_stamps
  ++ [{| item_topic := "/turtle1/cmd_vel"; item_ref := 0%nat;
         item_msg := twist_msg1; item_t := from_sec (PyInt 5) |}].

(** The item writes what the heap [h] holds at its reference. *)
Definition valid (h : list Msg) (it : Item) : Prop :=
  nth_error h (item_ref it) = Some (item_msg it).

(** The world in which the [try] block of [genbag_twist.py] starts. *)
Definition twist_start : World :=
  {| heap := [twist_msg1; twist_msg2];
     calls := [Call_Bag "./twist.bag" "w"];
     written := [] |}.

End Genbag.

(** * Properties *)

(** ** The subscriber *)

Section MqttcFacts.

Import Mqttc PyVal Text.

Lemma len_cons {A} (a : A) (xs : list A) : len (a :: xs) = len xs + 1.
Proof. unfold len. cbn [List.length]. lia. Qed.

Lemma len_nonneg {A} (xs : list A) : 0 <= len xs.
Proof. unfold len. lia. Qed.

Lemma string_app_assoc (s t u : string) :
  ((s ++ t) ++ u = s ++ (t ++ u))%string.
Proof. induction s as [| c s IH]; cbn; [reflexivity | now rewrite IH]. Qed.

Lemma string_app_nil_r (s : string) : (s ++ "")%string = s.
Proof. induction s as [| c s IH]; cbn; [reflexivity | now rewrite IH]. Qed.

Lemma string_app_inv_head (p s t : string) :
  (p ++ s = p ++ t)%string -> s = t.
Proof.
  induction p as [| c p IH]; cbn; [auto |].
  intros [= H]. auto.
Qed.

Lemma substring_of_app (s pre post : string) :
  substring_of s (pre ++ s ++ post)%string.
Proof. now exists pre, post. Qed.

Lemma substring_of_trans (s t u : string) :
  substring_of s t -> substring_of t u -> substring_of s u.
Proof.
  intros [p1 [q1 ->]] [p2 [q2 ->]].
  exists (p2 ++ p1)%string, (q1 ++ q2)%string.
  now rewrite !string_app_assoc.
Qed.

Lemma list_ascii_of_string_app (s t : string) :
  list_ascii_of_string (s ++ t)
  = list_ascii_of_string s ++ list_ascii_of_string t.
Proof. induction s as [| c s IH]; cbn; [reflexivity | now rewrite IH]. Qed.

(** A character of a substring is a character of the string. *)
Lemma substring_of_char (s t : string) (c : ascii) :
  substring_of s t ->
  In c (list_ascii_of_string s) -> In c (list_ascii_of_string t).
Proof.
  intros [pre [post ->]] Hc.
  rewrite !list_ascii_of_string_app, !in_app_iff. auto.
Qed.

(** *** Texts the stream always takes *)

Lemma printable_app (s t : string) :
  printable (s ++ t) = printable s && printable t.
Proof. unfold printable. now rewrite list_ascii_of_string_app, forallb_app. Qed.

Lemma encodable_app (enc : Encoding) (s t : string) :
  encodable enc (s ++ t) = encodable enc s && encodable enc t.
Proof. unfold encodable. now rewrite list_ascii_of_string_app, forallb_app. Qed.

Lemma single_line_app (s t : string) :
  single_line (s ++ t) = single_line s && single_line t.
Proof.
  unfold single_line.
  now rewrite list_ascii_of_string_app, existsb_app, negb_orb.
Qed.

(** Printable ASCII is in every encoding, and holds no line feed. *)
Lemma printable_encodable (enc : Encoding) (s : string) :
  printable s = true -> encodable enc s = true.
Proof.
  unfold printable, encodable.
  induction (list_ascii_of_string s) as [| c cs IH]; cbn [forallb];
    [reflexivity |].
  intros H. apply andb_true_iff in H as [Hc Hcs].
  rewrite (IH Hcs), andb_true_r.
  apply andb_true_iff in Hc as [_ Hc]. apply N.leb_le in Hc.
  destruct enc; cbn [encodes]; [apply N.ltb_lt; lia | apply N.ltb_lt; lia |
                                reflexivity].
Qed.

Lemma printable_single_line (s : string) :
  printable s = true -> single_line s = true.
Proof.
  unfold printable, single_line.
  induction (list_ascii_of_string s) as [| c cs IH]; cbn [forallb existsb];
    [reflexivity |].
  intros H. apply andb_true_iff in H as [Hc Hcs].
  specialize (IH Hcs). apply negb_true_iff in IH. rewrite IH, orb_false_r.
  apply negb_true_iff, Ascii.eqb_neq. intros <-.
  cbn in Hc. discriminate Hc.
Qed.

Lemma printable_string_of_uint (d : Decimal.uint) :
  printable (NilEmpty.string_of_uint d) = true.
Proof.
  induction d; cbn [NilEmpty.string_of_uint]; try reflexivity;
    change (String ?c ?s) with (String c "" ++ s)%string;
    rewrite printable_app, IHd; reflexivity.
Qed.

(** [str] of an integer is printable ASCII. *)
Lemma printable_str_int (n : Z) : printable (str (VInt n)) = true.
Proof.
  cbn [str]. unfold NilZero.string_of_int, NilZero.string_of_uint.
  destruct (Z.to_int n) as [d | d]; destruct d; try reflexivity;
    try apply printable_string_of_uint;
    change (String "-" ?s) with (String "-" "" ++ s)%string;
    rewrite printable_app, printable_string_of_uint; reflexivity.
Qed.

Lemma bytes_quote_cases (b : list byte) :
  bytes_quote b = squote \/ bytes_quote b = dquote.
Proof.
  unfold bytes_quote. destruct (occurs squote b && negb (occurs dquote b)); auto.
Qed.

Lemma printable_bytes_repr_byte (q : ascii) (x : byte) :
  q = squote \/ q = dquote -> printable (bytes_repr_byte q x) = true.
Proof. intros [-> | ->]; destruct x; reflexivity. Qed.

Lemma concat_cons (x : string) (xs : list string) :
  String.concat "" (x :: xs) = (x ++ String.concat "" xs)%string.
Proof.
  destruct xs as [| y xs]; cbn [String.concat].
  - now rewrite string_app_nil_r.
  - reflexivity.
Qed.

Lemma printable_repr_inside (q : ascii) (b : list byte) :
  q = squote \/ q = dquote ->
  printable (String.concat "" (map (bytes_repr_byte q) b)) = true.
Proof.
  intros Hq. induction b as [| x b IH]; [reflexivity |].
  cbn [map]. rewrite concat_cons, printable_app, IH.
  now rewrite (printable_bytes_repr_byte q x Hq).
Qed.

(** [str] of a bytes value is printable ASCII. *)
Lemma printable_bytes_repr (b : list byte) : printable (bytes_repr b) = true.
Proof.
  unfold bytes_repr.
  pose proof (printable_repr_inside _ b (bytes_quote_cases b)) as Hin.
  pose proof (bytes_quote_cases b) as Hq.
  revert Hin Hq. generalize (bytes_quote b). intros q Hin Hq.
  change (String "b" (String q ?s)) with (String "b" (String q "") ++ s)%string.
  rewrite !printable_app, Hin.
  destruct Hq as [-> | ->]; reflexivity.
Qed.

Lemma printable_connect_text (rc : Z) :
  printable ("Connected with result code " ++ str (VInt rc)) = true.
Proof. now rewrite printable_app, printable_str_int. Qed.

(** The text of a message is as encodable, and as much one line, as its
    topic is. *)
Lemma encodable_message_text (enc : Encoding) (t : string) (b : list byte) :
  encodable enc ("at topic" ++ t ++ " data: " ++ str (VBytes b)) = encodable enc t.
Proof.
  cbn [str]. rewrite !encodable_app.
  rewrite (printable_encodable enc "at topic" eq_refl).
  rewrite (printable_encodable enc " data: " eq_refl).
  rewrite (printable_encodable enc _ (printable_bytes_repr b)).
  now rewrite !andb_true_r.
Qed.

Lemma single_line_message_text (t : string) (b : list byte) :
  single_line ("at topic" ++ t ++ " data: " ++ str (VBytes b)) = single_line t.
Proof.
  cbn [str]. rewrite !single_line_app.
  rewrite (printable_single_line _ (printable_bytes_repr b)).
  cbn. now rewrite !andb_true_r.
Qed.

(** *** The callbacks in closed form *)

Lemma on_connect_run (enc : Encoding) (userdata flags : PyVal.t) (rc : Z) (w : World) :
  on_connect enc userdata flags rc w
  = (Ok tt,
     {| stdout := stdout w ++ [("Connected with result code " ++ str (VInt rc))%string];
        client_on_connect := client_on_connect w;
        client_on_message := client_on_message w;
        calls := calls w ++ [Call_subscribe "digitaltwin"] |}).
Proof.
  unfold on_connect, print.
  rewrite (printable_encodable enc _ (printable_connect_text rc)).
  reflexivity.
Qed.

Lemma on_message_run (enc : Encoding) (userdata : PyVal.t) (msg : MQTTMessage) (w : World) :
  on_message enc userdata msg w
  = match packet_text enc (PUBLISH msg) with
    | Ok text =>
        (Ok tt,
         {| stdout := stdout w ++ [text];
            client_on_connect := client_on_connect w;
            client_on_message := client_on_message w;
            calls := calls w |})
    | Raise e => (Raise e, w)
    end.
Proof.
  unfold on_message, topic, packet_text, bind.
  destruct (decode (raw_topic msg)) as [t |]; [| reflexivity].
  cbn [ret]. unfold print. rewrite encodable_message_text.
  destruct (encodable enc t); reflexivity.
Qed.

Lemma dispatch_listening (enc : Encoding) (p : Packet)
  (out : list string) (cs : list ClientCall) :
  dispatch enc p (listening out cs)
  = match packet_text enc p with
    | Ok text => (Ok tt, listening (out ++ [text]) (cs ++ packet_calls p))
    | Raise e => (Raise e, listening out cs)
    end.
Proof.
  destruct p as [flags rc | msg]; unfold dispatch, bind, get;
    cbn [listening client_on_connect client_on_message].
  - rewrite on_connect_run. reflexivity.
  - rewrite on_message_run.
    destruct (packet_text enc (PUBLISH msg)); cbn; [| reflexivity].
    now rewrite app_nil_r.
Qed.

Lemma loop_listening (enc : Encoding) (ps : list Packet) :
  forall out cs,
    for_each ps (dispatch enc) (listening out cs)
    = (match stopped enc ps with
       | None => Ok tt
       | Some e => Raise e
       end,
       listening (out ++ texts enc ps)
                 (cs ++ flat_map packet_calls (served enc ps))).
Proof.
  unfold texts.
  induction ps as [| p ps IH]; intros out cs.
  - cbn. now rewrite !app_nil_r.
  - cbn [for_each served stopped]. unfold bind at 1.
    rewrite dispatch_listening.
    destruct (packet_text enc p) as [text | e] eqn:E.
    + rewrite IH. cbn [flat_map]. rewrite E, <- !app_assoc. reflexivity.
    + cbn. now rewrite !app_nil_r.
Qed.

(** The whole run in closed form: one connect call with the target the
    command line names and, unless connecting fails, the loop and what the
    callbacks do for each packet, up to the first callback that raises. *)
Lemma run_closed_form (env : Env) :
  run env
  = let '(host, port) := target (sys_argv env) in
    let enc := stdout_encoding env in
    if connect_raises env
    then (Raise (LibraryError "connect"),
          listening [] [Call_connect host port 60])
    else (match stopped enc (net env) with
          | None => Ok tt
          | Some e => Raise e
          end,
          listening (texts enc (net env))
                    ([Call_connect host port 60; Call_loop_forever]
                     ++ flat_map packet_calls (served enc (net env)))).
Proof.
  destruct env as [argv enc cr ps]. unfold run, script.
  cbn [sys_argv stdout_encoding connect_raises net].
  assert (tail : forall h p out cs,
    (client_connect
       {| sys_argv := argv; stdout_encoding := enc; connect_raises := cr; net := ps |}
       h p 60 ;;
     client_loop_forever
       {| sys_argv := argv; stdout_encoding := enc; connect_raises := cr; net := ps |})
      (listening out cs)
    = if cr
      then (Raise (LibraryError "connect"), listening out (cs ++ [Call_connect h p 60]))
      else (match stopped enc ps with
            | None => Ok tt
            | Some e => Raise e
            end,
            listening (out ++ texts enc ps)
              (cs ++ [Call_connect h p 60; Call_loop_forever]
                  ++ flat_map packet_calls (served enc ps)))).
  { intros h p out cs. unfold client_connect, client_loop_forever.
    destruct cr; cbn.
    - reflexivity.
    - change (for_each ps (dispatch enc)
                (listening out ((cs ++ [Call_connect h p 60]) ++ [Call_loop_forever]))
              = (match stopped enc ps with
                 | None => Ok tt
                 | Some e => Raise e
                 end,
                 listening (out ++ texts enc ps)
                   (cs ++ Call_connect h p 60 :: Call_loop_forever
                       :: flat_map packet_calls (served enc ps)))).
      rewrite loop_listening, <- !app_assoc. reflexivity. }
  destruct argv as [| a0 [| a1 [| a2 rest]]].
  - apply (tail (VStr "localhost") (VInt 1883) [] []).
  - apply (tail (VStr "localhost") (VInt 1883) [] []).
  - apply (tail (VStr a1) (VInt 1883) [] []).
  - assert (H1 : (1 <? len (a0 :: a1 :: a2 :: rest)) = true).
    { apply Z.ltb_lt. rewrite !len_cons. pose proof (len_nonneg rest). lia. }
    assert (H2 : (2 <? len (a0 :: a1 :: a2 :: rest)) = true).
    { apply Z.ltb_lt. rewrite !len_cons. pose proof (len_nonneg rest). lia. }
    unfold bind at 1 2 3 4. cbn [set_on_connect set_on_message modify].
    rewrite H1, H2.
    apply (tail (VStr a1) (VStr a2) [] []).
Qed.

Lemma connections_packet_calls (ps : list Packet) :
  connections (flat_map packet_calls ps) = [].
Proof.
  induction ps as [| [flags rc | msg] ps IH]; cbn; auto.
Qed.

Lemma subscriptions_packet_calls (ps : list Packet) :
  subscriptions (flat_map packet_calls ps) = repeat "digitaltwin" (connacks ps).
Proof.
  unfold connacks.
  induction ps as [| [flags rc | msg] ps IH]; cbn; [reflexivity | | assumption].
  now rewrite <- IH.
Qed.

(** When no callback raises, every packet is served. *)
Lemma served_all (enc : Encoding) (ps : list Packet) :
  stopped enc ps = None -> served enc ps = ps.
Proof.
  induction ps as [| p ps IH]; cbn [stopped served]; [reflexivity |].
  destruct (packet_text enc p); [| discriminate].
  intros H. now rewrite IH.
Qed.

(** The connect calls of a run: one, with the target of the command line. *)
Lemma connections_run (env : Env) :
  connections (calls (snd (run env)))
  = [(fst (target (sys_argv env)), snd (target (sys_argv env)), 60)].
Proof.
  rewrite run_closed_form.
  destruct (target (sys_argv env)) as [host port]. cbv zeta.
  destruct (connect_raises env); cbn; [reflexivity |].
  now rewrite connections_packet_calls.
Qed.

(** C2.  The broker the subscriber connects to.  With no positional
    argument [connect] is called with host ['localhost'] and port [1883];
    with one, the host is [argv[1]] and the port stays [1883]; with two or
    more, the host is [argv[1]] and the port is [argv[2]].  In each case
    it is the only connect call of the run, whether connecting succeeds
    or not, whatever the encoding of the output and whatever arrives
    afterwards. *)
Theorem connect_target_by_argument_count
  (enc : Encoding) (cr : bool) (ps : list Packet) :
  (forall prog,
     connections (calls (snd (run
       {| sys_argv := [prog]; stdout_encoding := enc;
          connect_raises := cr; net := ps |})))
     = [(VStr "localhost", VInt 1883, 60)])
  /\ (forall prog host,
        connections (calls (snd (run
          {| sys_argv := [prog; host]; stdout_encoding := enc;
             connect_raises := cr; net := ps |})))
        = [(VStr host, VInt 1883, 60)])
  /\ (forall prog host port rest,
        connections (calls (snd (run
          {| sys_argv := prog :: host :: port :: rest; stdout_encoding := enc;
             connect_raises := cr; net := ps |})))
        = [(VStr host, VStr port, 60)]).
Proof.
  repeat split; intros; rewrite connections_run; reflexivity.
Qed.

(** C8.  With a second positional argument, the port handed to [connect] is
    the command-line string [argv[2]] itself, whatever it spells: it is
    never an integer, and no string is turned away before the call. *)
Theorem connect_port_is_raw_argument
  (prog host port : string) (rest : list string)
  (enc : Encoding) (cr : bool) (ps : list Packet) :
  map (fun c => snd (fst c))
      (connections (calls (snd (run
         {| sys_argv := prog :: host :: port :: rest; stdout_encoding := enc;
            connect_raises := cr; net := ps |}))))
  = [VStr port]
  /\ (forall n : Z, VStr port <> VInt n).
Proof.
  split; [| discriminate].
  rewrite connections_run. reflexivity.
Qed.

(** C5.  Each run of the connect callback makes exactly one call on the
    client, a subscription to ['digitaltwin'], whatever the result code and
    the encoding of the output; and over a whole run of the script the
    subscriptions are those: ['digitaltwin'], once for each connection
    answer handed to the callback, and no other.  The answers handed to
    the callback are all that arrive, unless a message callback raised
    before. *)
Theorem subscribe_once_per_connection :
  (forall enc userdata flags rc w,
     calls (snd (on_connect enc userdata flags rc w))
     = calls w ++ [Call_subscribe "digitaltwin"])
  /\ (forall env,
        subscriptions (calls (snd (run env)))
        = repeat "digitaltwin"
            (if connect_raises env then 0%nat
             else connacks (served (stdout_encoding env) (net env))))
  /\ (forall env,
        stopped (stdout_encoding env) (net env) = None ->
        subscriptions (calls (snd (run env)))
        = repeat "digitaltwin"
            (if connect_raises env then 0%nat else connacks (net env))).
Proof.
  assert (H : forall env,
             subscriptions (calls (snd (run env)))
             = repeat "digitaltwin"
                 (if connect_raises env then 0%nat
                  else connacks (served (stdout_encoding env) (net env)))).
  { intros env. rewrite run_closed_form.
    destruct (target (sys_argv env)) as [host port]. cbv zeta.
    destruct (connect_raises env); cbn; [reflexivity |].
    apply subscriptions_packet_calls. }
  split; [| split].
  - intros enc userdata flags rc w. now rewrite on_connect_run.
  - exact H.
  - intros env Hs. rewrite H, (served_all _ _ Hs). reflexivity.
Qed.

(** C10.  The connect callback subscribes to ['digitaltwin'] for every
    result code [rc], a failure code as any other, and on every output
    encoding: [rc] shows in the printed text and nowhere else, so two
    result codes lead to the same calls on the client. *)
Theorem on_connect_subscribes_for_any_rc
  (enc : Encoding) (userdata flags : PyVal.t) (rc : Z) (w : World) :
  on_connect enc userdata flags rc w
  = (Ok tt,
     {| stdout := stdout w ++ [("Connected with result code " ++ str (VInt rc))%string];
        client_on_connect := client_on_connect w;
        client_on_message := client_on_message w;
        calls := calls w ++ [Call_subscribe "digitaltwin"] |})
  /\ (forall rc',
        calls (snd (on_connect enc userdata flags rc' w))
        = calls (snd (on_connect enc userdata flags rc w))).
Proof.
  split; [apply on_connect_run |].
  intros rc'. now rewrite !on_connect_run.
Qed.

(** A run on three packets: the answer to the connection, a message, and a
    message whose topic is not UTF-8, at which the loop ends. *)
Example run_connack_then_publish :
  run {| sys_argv := ["mqttc.py"; "broker"];
         stdout_encoding := enc_utf_8;
         connect_raises := false;
         net := [CONNACK VNone 0;
                 PUBLISH {| raw_topic := list_byte_of_string "digitaltwin";
                            payload := [x68; x65; x6c; x6c; x6f] |};
                 PUBLISH {| raw_topic := [xff; xfe]; payload := [x68; x69] |};
                 CONNACK VNone 0] |}
  = (Raise UnicodeDecodeError,
     listening ["Connected with result code 0";
                "at topicdigitaltwin data: b'hello'"]
               [Call_connect (VStr "broker") (VInt 1883) 60;
                Call_loop_forever;
                Call_subscribe "digitaltwin"]).
Proof. reflexivity. Qed.

(** *** What a bytes literal shows as it is *)

Lemma string_length_app (s t : string) :
  String.length (s ++ t) = (String.length s + String.length t)%nat.
Proof. induction s as [| c s IH]; cbn; [reflexivity | now rewrite IH]. Qed.

Lemma string_of_list_byte_length (b : list byte) :
  String.length (string_of_list_byte b) = List.length b.
Proof.
  unfold string_of_list_byte.
  induction b as [| x b IH]; cbn; [reflexivity | now rewrite IH].
Qed.

Lemma bytes_repr_byte_kept (q : ascii) (x : byte) :
  q = squote \/ q = dquote ->
  kept q x = true -> bytes_repr_byte q x = String (ascii_of_byte x) "".
Proof. intros [-> | ->]; destruct x; intros H; try discriminate H; reflexivity. Qed.

(** An escape is longer than the byte it stands for. *)
Lemma bytes_repr_byte_length (q : ascii) (x : byte) :
  q = squote \/ q = dquote ->
  (1 <= String.length (bytes_repr_byte q x))%nat
  /\ (String.length (bytes_repr_byte q x) = 1%nat -> kept q x = true).
Proof.
  intros [-> | ->]; destruct x; cbn; split; try lia; intros H;
    try discriminate H; reflexivity.
Qed.

Lemma repr_inside_kept (q : ascii) (b : list byte) :
  q = squote \/ q = dquote ->
  forallb (kept q) b = true ->
  String.concat "" (map (bytes_repr_byte q) b) = string_of_list_byte b.
Proof.
  intros Hq. induction b as [| x b IH]; cbn [forallb map]; [reflexivity |].
  intros H. apply andb_true_iff in H as [Hx Hb].
  rewrite concat_cons, (bytes_repr_byte_kept q x Hq Hx), (IH Hb). reflexivity.
Qed.

Lemma repr_inside_length (q : ascii) (b : list byte) :
  q = squote \/ q = dquote ->
  (List.length b <= String.length (String.concat "" (map (bytes_repr_byte q) b)))%nat
  /\ (String.length (String.concat "" (map (bytes_repr_byte q) b)) = List.length b ->
      forallb (kept q) b = true).
Proof.
  intros Hq. induction b as [| x b [IHle IHeq]]; [split; [cbn; lia | reflexivity] |].
  cbn [map List.length forallb]. rewrite concat_cons, string_length_app.
  destruct (bytes_repr_byte_length q x Hq) as [Hle Heq].
  split; [lia |].
  intros H. rewrite Heq by lia. rewrite IHeq by lia. reflexivity.
Qed.

(** The literal of a bytes value is the bytes themselves between [b] and
    the quotes exactly when no byte needs an escape. *)
Lemma bytes_repr_verbatim (b : list byte) :
  shown_verbatim b = true
  <-> bytes_repr b
      = String "b" (String (bytes_quote b)
                      (string_of_list_byte b ++ String (bytes_quote b) "")).
Proof.
  unfold shown_verbatim, bytes_repr.
  pose proof (bytes_quote_cases b) as Hq. split.
  - intros H. now rewrite (repr_inside_kept _ b Hq H).
  - intros H. injection H as H.
    apply (f_equal String.length) in H.
    rewrite !string_length_app, string_of_list_byte_length in H.
    apply (repr_inside_length _ b Hq). lia.
Qed.

(** C6, as stated, fails in four ways.  A payload of one tab byte is
    printed as the two characters of its escape, and the text holds no tab.
    A topic that is not UTF-8 makes the callback raise before anything is
    printed.  A topic with a line feed in it gives two lines.  A topic the
    encoding of the output does not have makes [print] raise. *)
Lemma on_message_not_always_one_line_with_payload :
  ~ prints_topic_and_payload enc_utf_8
      {| raw_topic := list_byte_of_string "digitaltwin"; payload := [x09] |}
  /\ ~ prints_topic_and_payload enc_utf_8
        {| raw_topic := [xff; xfe]; payload := [x68; x69] |}
  /\ ~ prints_topic_and_payload enc_utf_8
        {| raw_topic := [x61; x0a; x62]; payload := [x68; x69] |}
  /\ ~ prints_topic_and_payload enc_ascii
        {| raw_topic := [xc3; xa9]; payload := [x68; x69] |}.
Proof.
  repeat split; intros H; destruct (H (fresh [])) as [text [E [L [_ S]]]];
    vm_compute in E; try discriminate E; injection E as <-.
  - apply (substring_of_char _ _ "009"%char) in S; [| now left].
    cbn in S. repeat destruct S as [S | S]; try discriminate S. exact S.
  - vm_compute in L. discriminate L.
Qed.

(** C6, amended.  The callback reads the topic, which the library decodes
    as UTF-8, and makes one call of [print] with
    ["at topic" + topic + " data: " + str(payload)], with no parsing and no
    validation of the payload.  Where the topic is not UTF-8 it raises
    [UnicodeDecodeError], and where the output does not have a character
    of the topic it raises [UnicodeEncodeError]; nothing is printed then.
    Otherwise the text is printed; it holds the topic and the literal
    [b'...'] of the payload; it is one line exactly when the topic holds no
    line feed; and the literal shows the payload as it is exactly when no
    byte of it needs an escape, in which case the text holds the payload
    itself. *)
Theorem on_message_prints_topic_and_str_payload
  (enc : Encoding) (userdata : PyVal.t) (msg : MQTTMessage) (w : World) :
  match decode (raw_topic msg) with
  | None => on_message enc userdata msg w = (Raise UnicodeDecodeError, w)
  | Some t =>
      let text :=
        ("at topic" ++ t ++ " data: " ++ str (VBytes (payload msg)))%string in
      let q := bytes_quote (payload msg) in
      if encodable enc t then
        on_message enc userdata msg w
        = (Ok tt,
           {| stdout := stdout w ++ [text];
              client_on_connect := client_on_connect w;
              client_on_message := client_on_message w;
              calls := calls w |})
        /\ t = string_of_list_byte (raw_topic msg)
        /\ substring_of t text
        /\ substring_of (str (VBytes (payload msg))) text
        /\ single_line text = single_line t
        /\ (shown_verbatim (payload msg) = true
            <-> str (VBytes (payload msg))
                = String "b" (String q
                    (string_of_list_byte (payload msg) ++ String q "")))
        /\ (shown_verbatim (payload msg) = true ->
            substring_of (string_of_list_byte (payload msg)) text)
      else on_message enc userdata msg w = (Raise UnicodeEncodeError, w)
  end.
Proof.
  rewrite on_message_run. cbn [packet_text].
  destruct (decode (raw_topic msg)) as [t |] eqn:Ed; [| reflexivity].
  cbv zeta. destruct (encodable enc t) eqn:Ee; [| reflexivity].
  assert (Hstr : substring_of (str (VBytes (payload msg)))
            ("at topic" ++ t ++ " data: " ++ str (VBytes (payload msg)))%string).
  { exists ("at topic" ++ t ++ " data: ")%string, ""%string.
    rewrite string_app_nil_r, !string_app_assoc. reflexivity. }
  split; [reflexivity |]. split.
  { unfold decode in Ed. destruct (well_formed (raw_topic msg)); congruence. }
  split; [apply substring_of_app |].
  split; [exact Hstr |].
  split; [apply single_line_message_text |].
  split; [apply bytes_repr_verbatim |].
  intros Hv. refine (substring_of_trans _ _ _ _ Hstr).
  cbn [str]. rewrite (proj1 (bytes_repr_verbatim _) Hv).
  exists (String "b" (String (bytes_quote (payload msg)) "")),
         (String (bytes_quote (payload msg)) "").
  reflexivity.
Qed.

End MqttcFacts.

(** ** The bag generators *)

Section GenbagFacts.

Import Genbag PyNum.

Lemma writes_only_ret {A} (a : A) : writes_only (ret a).
Proof.
  intros w. exists []. cbn. rewrite app_nil_r. auto.
Qed.

Lemma writes_only_raise {A} (e : Exn) : writes_only (@raise World A e).
Proof.
  intros w. exists []. cbn. rewrite app_nil_r. auto.
Qed.

Lemma writes_only_num (r : option PyNum.t) : writes_only (@num World r).
Proof.
  destruct r; [apply writes_only_ret | apply writes_only_raise].
Qed.

Lemma writes_only_bind {A B} (m : M World A) (k : A -> M World B) :
  writes_only m -> (forall a, writes_only (k a)) -> writes_only (bind m k).
Proof.
  intros Hm Hk w. unfold bind.
  destruct (Hm w) as [cs [Hh [Hc Hf]]].
  destruct (m w) as [[a | e] w1]; cbn [snd] in *.
  - destruct (Hk a w1) as [cs' [Hh' [Hc' Hf']]].
    exists (cs ++ cs'). rewrite Hh', Hc', Hh, Hc, app_assoc.
    repeat split. apply Forall_app. split; [assumption |].
    now rewrite <- Hh.
  - exists cs. auto.
Qed.

Lemma writes_only_for_each {A} (xs : list A) (body : A -> M World unit) :
  (forall a, writes_only (body a)) -> writes_only (for_each xs body).
Proof.
  intros Hb. induction xs as [| a xs IH]; cbn [for_each].
  - apply writes_only_ret.
  - apply writes_only_bind; auto.
Qed.

Lemma writes_only_bag_write (env : Env) (topic : string) (msg : ref) (t : Time) :
  writes_only (bag_write env topic msg t).
Proof.
  intros w. unfold bag_write, bind, get.
  destruct (nth_error (heap w) msg) as [m |] eqn:E.
  - exists [Call_write topic msg m t].
    cbn. destruct (write_raises env _); cbn; repeat split; auto.
  - exists []. cbn. rewrite app_nil_r. auto.
Qed.

(** What [finally: bag.close()] leaves behind: the world of the body, with
    one more call, the close. *)
Lemma try_finally_bag_close {A} (env : Env) (body : M World A) (w : World) :
  snd (try_finally body (bag_close env) w)
  = {| heap := heap (snd (body w));
       calls := calls (snd (body w)) ++ [Call_close];
       written := written (snd (body w)) |}.
Proof.
  unfold try_finally, bag_close, bind, log_call, modify.
  destruct (body w) as [r w']. destruct (close_raises env); reflexivity.
Qed.

Lemma writes_only_string_try (env : Env) (msg : ref) :
  writes_only (genbag_string_try env msg).
Proof. apply writes_only_bag_write. Qed.

Lemma writes_only_twist_try (env : Env) (msg1 msg2 : ref) :
  writes_only (genbag_twist_try env msg1 msg2).
Proof.
  unfold genbag_twist_try.
  repeat first
    [ apply writes_only_bag_write
    | apply writes_only_num
    | apply writes_only_for_each; intros
    | apply writes_only_bind; intros ].
Qed.

(** The calls of a run whose bag opens: the opening, writes of the
    messages as they were built, and the close; the heap holds the
    messages as they were built. *)
Lemma genbag_string_shape (wr : nat -> bool) (cr : bool) :
  let w := snd (run genbag_string
                  {| Bag_raises := false; write_raises := wr; close_raises := cr |}) in
  exists cs,
    heap w = [string_msg]
    /\ calls w = Call_Bag "./objective_string.bag" "w" :: cs ++ [Call_close]
    /\ Forall (write_of [string_msg]) cs.
Proof.
  set (env := {| Bag_raises := false; write_raises := wr; close_raises := cr |}).
  set (w1 := {| heap := [string_msg];
                calls := [Call_Bag "./objective_string.bag" "w"];
                written := [] |}).
  change (run genbag_string env)
    with (try_finally (genbag_string_try env 0%nat) (bag_close env) w1).
  cbv zeta. rewrite try_finally_bag_close. cbn [heap calls].
  destruct (writes_only_string_try env 0%nat w1) as [cs [Hh [Hc Hf]]].
  exists cs. rewrite Hh, Hc. auto.
Qed.

Lemma genbag_twist_shape (wr : nat -> bool) (cr : bool) :
  let w := snd (run genbag_twist
                  {| Bag_raises := false; write_raises := wr; close_raises := cr |}) in
  exists cs,
    heap w = [twist_msg1; twist_msg2]
    /\ calls w = Call_Bag "./twist.bag" "w" :: cs ++ [Call_close]
    /\ Forall (write_of [twist_msg1; twist_msg2]) cs.
Proof.
  set (env := {| Bag_raises := false; write_raises := wr; close_raises := cr |}).
  set (w1 := {| heap := [twist_msg1; twist_msg2];
                calls := [Call_Bag "./twist.bag" "w"];
                written := [] |}).
  change (run genbag_twist env)
    with (try_finally (genbag_twist_try env 0%nat 1%nat) (bag_close env) w1).
  cbv zeta. rewrite try_finally_bag_close. cbn [heap calls].
  destruct (writes_only_twist_try env 0%nat 1%nat w1) as [cs [Hh [Hc Hf]]].
  exists cs. rewrite Hh, Hc. auto.
Qed.

(** A statement that changes a message is told apart: it is not
    [writes_only]. *)
Lemma setattr_not_writes_only :
  ~ writes_only (setattr 0%nat twist_msg2).
Proof.
  intros H.
  destruct (H {| heap := [twist_msg1]; calls := []; written := [] |})
    as [cs [Hh _]].
  discriminate Hh.
Qed.

(** The third write raising: the two records before it are in the bag, the
    loop stops there, the bag is closed, and the exception leaves the
    script. *)
Example genbag_twist_third_write_raises :
  run genbag_twist
    {| Bag_raises := false; write_raises := Nat.eqb 2; close_raises := false |}
  = (Raise (LibraryError "write"),
     {| heap := [twist_msg1; twist_msg2];
        calls := [Call_Bag "./twist.bag" "w";
                  Call_write "/turtle1/cmd_vel" 0%nat twist_msg1 (from_sec (PyInt 0));
                  Call_write "/turtle1/cmd_vel" 1%nat twist_msg2 (from_sec (PyFloat 1));
                  Call_write "/turtle1/cmd_vel" 1%nat twist_msg2 (from_sec (PyFloat 1.01));
                  Call_close];
        written := [("/turtle1/cmd_vel", twist_msg1, from_sec (PyInt 0));
                    ("/turtle1/cmd_vel", twist_msg2, from_sec (PyFloat 1))] |}).
Proof. vm_compute. reflexivity. Qed.

(** X10.  A bag that cannot be opened is never written nor closed: the
    exception of [rosbag.Bag] leaves the script before any message is built
    and before the [try] block is entered, in both generators. *)
Lemma genbag_Bag_raises (wr : nat -> bool) (cr : bool) :
  let env := {| Bag_raises := true; write_raises := wr; close_raises := cr |} in
  run genbag_string env
  = (Raise (LibraryError "Bag"),
     {| heap := []; calls := [Call_Bag "./objective_string.bag" "w"];
        written := [] |})
  /\ run genbag_twist env
     = (Raise (LibraryError "Bag"),
        {| heap := []; calls := [Call_Bag "./twist.bag" "w"]; written := [] |}).
Proof. split; reflexivity. Qed.

Lemma PyNum_ltb_lt (a b : PyNum.t) : PyNum.ltb a b = true -> PyNum.lt a b.
Proof.
  unfold PyNum.ltb, PyNum.lt.
  destruct (PyNum.value a) as [p |], (PyNum.value b) as [q |];
    try discriminate.
  rewrite Qlt_alt. destruct (p ?= q)%Q; congruence.
Qed.

Lemma increasingb_sound (l : list PyNum.t) :
  increasingb l = true -> StronglySorted PyNum.lt l.
Proof.
  induction l as [| a l IH]; cbn [increasingb]; intros H.
  - constructor.
  - apply andb_true_iff in H as [Ha Hl]. constructor; [auto |].
    rewrite forallb_forall in Ha. apply Forall_forall.
    intros b Hb. apply PyNum_ltb_lt. auto.
Qed.

Lemma withinb_sound (eps q : Q) (t : PyNum.t) :
  withinb eps q t = true -> within eps q t.
Proof.
  unfold withinb, within. destruct (PyNum.value t) as [v |]; [| discriminate].
  intros H. exists v. split; [reflexivity |]. now apply Qle_bool_iff.
Qed.

Lemma write_of_not_close (h : list Msg) (cs : list BagCall) :
  Forall (write_of h) cs -> filter is_close cs = [].
Proof.
  induction 1 as [| c cs Hc _ IH]; [reflexivity |].
  destruct c; cbn in *; [contradiction | assumption | contradiction].
Qed.

Lemma closed_once_at_end_shape (h : list Msg) (path mode : string) (cs : list BagCall) :
  Forall (write_of h) cs ->
  closed_once_at_end (Call_Bag path mode :: cs ++ [Call_close]).
Proof.
  intros Hf. split.
  - cbn [filter is_close]. rewrite filter_app, (write_of_not_close h cs Hf).
    reflexivity.
  - change (Call_Bag path mode :: cs ++ [Call_close])
      with ((Call_Bag path mode :: cs) ++ [Call_close]).
    apply last_last.
Qed.

(** C3.  Each generator closes its bag on every exit path of the [try]
    block: whichever writes raise or return, and whether the close itself
    raises or not, the calls of the run hold exactly one [bag.close()],
    and it is the last thing the script does. *)
Theorem bag_closed_once_on_every_exit (wr : nat -> bool) (cr : bool) :
  let env := {| Bag_raises := false; write_raises := wr; close_raises := cr |} in
  closed_once_at_end (calls (snd (run genbag_string env)))
  /\ closed_once_at_end (calls (snd (run genbag_twist env))).
Proof.
  cbv zeta. split.
  - destruct (genbag_string_shape wr cr) as [cs [_ [-> Hf]]].
    exact (closed_once_at_end_shape _ _ _ cs Hf).
  - destruct (genbag_twist_shape wr cr) as [cs [_ [-> Hf]]].
    exact (closed_once_at_end_shape _ _ _ cs Hf).
Qed.

Lemma write_of_In (h : list Msg) (cs : list BagCall) (c : BagCall) :
  Forall (write_of h) cs ->
  In c (Call_Bag "./twist.bag" "w" :: cs ++ [Call_close])
  \/ In c (Call_Bag "./objective_string.bag" "w" :: cs ++ [Call_close]) ->
  is_write c = true -> write_of h c.
Proof.
  intros Hf Hin Hw. rewrite Forall_forall in Hf.
  assert (Hc : In c cs).
  { destruct Hin as [[<- | Hin] | [<- | Hin]]; try discriminate Hw;
      apply in_app_iff in Hin as [Hin | [<- | []]];
      try assumption; discriminate Hw. }
  exact (Hf c Hc).
Qed.

(** C7.  No message is changed after it is built.  In each generator,
    whichever library calls fail, the heap at the end holds the messages
    as the literals built them, and every write was shown, at the moment
    of the call, the contents its object was built with.  When nothing
    fails the twist generator shows the library its second object 239
    times, with the same contents each time. *)
Theorem messages_never_mutated (wr : nat -> bool) (cr : bool) :
  let env := {| Bag_raises := false; write_raises := wr; close_raises := cr |} in
  let ws := snd (run genbag_string env) in
  let wt := snd (run genbag_twist env) in
  (heap ws = [String_ "Dear turtle, please make a circle. Thanks!"]
   /\ forall topic r m t,
        In (Call_write topic r m t) (calls ws) ->
        nth_error (heap ws) r = Some m
        /\ m = String_ "Dear turtle, please make a circle. Thanks!")
  /\ (heap wt = [Twist (Vector3 (PyFloat 0) (PyFloat 0) (PyFloat 0))
                       (Vector3 (PyFloat 0) (PyFloat 0) (PyFloat 0));
                 Twist (Vector3 (PyInt 2) (PyInt 0) (PyInt 0))
                       (Vector3 (PyInt 0) (PyInt 0) (PyInt 2))]
      /\ forall topic r m t,
           In (Call_write topic r m t) (calls wt) ->
           nth_error (heap wt) r = Some m)
  /\ contents_written 1%nat (calls (snd (run genbag_twist no_failure)))
     = repeat (Twist (Vector3 (PyInt 2) (PyInt 0) (PyInt 0))
                     (Vector3 (PyInt 0) (PyInt 0) (PyInt 2))) 239%nat.
Proof.
  cbv zeta. split; [| split].
  - destruct (genbag_string_shape wr cr) as [cs [Hh [Hc Hf]]].
    rewrite Hh, Hc. split; [reflexivity |].
    intros topic r m t Hin.
    assert (Hw : write_of [string_msg] (Call_write topic r m t)).
    { apply (write_of_In _ cs); auto. }
    cbn in Hw. split; [exact Hw |].
    destruct r as [| r]; cbn in Hw.
    + injection Hw as <-. reflexivity.
    + destruct r; discriminate Hw.
  - destruct (genbag_twist_shape wr cr) as [cs [Hh [Hc Hf]]].
    rewrite Hh, Hc. split; [reflexivity |].
    intros topic r m t Hin.
    change (write_of [twist_msg1; twist_msg2] (Call_write topic r m t)).
    apply (write_of_In _ cs _ Hf); auto.
  - vm_compute. reflexivity.
Qed.

(** C4.  When the bag opens and the write returns, the string generator
    writes exactly one record: the [String] with the polite request, on
    topic ['/turtle1/cmd'], stamped 0.1 seconds, the binary64 number next
    to one tenth. *)
Theorem genbag_string_writes_one_message (cr : bool) :
  let env := {| Bag_raises := false; write_raises := fun _ => false;
                close_raises := cr |} in
  let w := snd (run genbag_string env) in
  written w
  = [("/turtle1/cmd",
      String_ "Dear turtle, please make a circle. Thanks!",
      from_sec (PyFloat 0.1))]
  /\ List.length (filter is_write (calls w)) = 1%nat
  /\ within (1 # 100000000000000000) (1 # 10) (PyFloat 0.1).
Proof.
  cbv zeta. repeat split.
  - destruct cr; reflexivity.
  - destruct cr; reflexivity.
  - apply withinb_sound. vm_compute. reflexivity.
Qed.

(** C1.  When the bag opens and every write returns, the twist generator
    writes exactly 241 records, all on topic ['/turtle1/cmd_vel'], in this
    order: the zero [Twist] stamped 0; then, for [i] from 0 to 238, the
    [Twist] with linear (2,0,0) and angular (0,0,2), stamped with the
    binary64 result of [1 + 0.01*i], which is within 1e-15 of 1 + i/100;
    then the zero [Twist] stamped 5. *)
Theorem genbag_twist_writes_241_messages (cr : bool) :
  let env := {| Bag_raises := false; write_raises := fun _ => false;
                close_raises := cr |} in
  let w := snd (run genbag_twist env) in
  let zero := Twist (Vector3 (PyFloat 0) (PyFloat 0) (PyFloat 0))
                    (Vector3 (PyFloat 0) (PyFloat 0) (PyFloat 0)) in
  let velocity := Twist (Vector3 (PyInt 2) (PyInt 0) (PyInt 0))
                        (Vector3 (PyInt 0) (PyInt 0) (PyInt 2)) in
  written w
  = [("/turtle1/cmd_vel", zero, from_sec (PyInt 0))]
    ++ map (fun i => ("/turtle1/cmd_vel", velocity,
                      from_sec (PyFloat (1 + 0.01 * float_of_nat i))))
           (seq 0 239)
    ++ [("/turtle1/cmd_vel", zero, from_sec (PyInt 5))]
  /\ List.length (written w) = 241%nat
  /\ List.length (filter is_write (calls w)) = 241%nat
  /\ (forall i, (i < 239)%nat ->
        within (1 # 1000000000000000) (1 + inject_Z (Z.of_nat i) / 100)
               (nth (S i) (stamps (written w)) (PyInt 0))).
Proof.
  cbv zeta. repeat split.
  - destruct cr; vm_compute; reflexivity.
  - destruct cr; vm_compute; reflexivity.
  - destruct cr; vm_compute; reflexivity.
  - intros i Hi. apply withinb_sound.
    revert i Hi.
    assert (H : forallb (fun i =>
                  withinb (1 # 1000000000000000) (1 + inject_Z (Z.of_nat i) / 100)
                    (nth (S i)
                       (stamps (written (snd (run genbag_twist
                          {| Bag_raises := false; write_raises := fun _ => false;
                             close_raises := cr |}))))
                       (PyInt 0)))
                  (seq 0 239) = true).
    { destruct cr; vm_compute; reflexivity. }
    rewrite forallb_forall in H.
    intros i Hi. apply H, in_seq. lia.
Qed.

(** C9.  The timestamps the twist generator hands to its writes are
    strictly increasing: 0, then the 239 values of [1 + 0.01*i], each
    above all the ones before it and the last one 3.38, then 5. *)
Theorem genbag_twist_stamps_strictly_increase (cr : bool) :
  let env := {| Bag_raises := false; write_raises := fun _ => false;
                close_raises := cr |} in
  let ts := stamps (written (snd (run genbag_twist env))) in
  ts = [PyInt 0]
       ++ map (fun i => PyFloat (1 + 0.01 * float_of_nat i)) (seq 0 239)
       ++ [PyInt 5]
  /\ StronglySorted PyNum.lt ts
  /\ nth 239 ts (PyInt 0) = PyFloat 3.38.
Proof.
  cbv zeta. repeat split.
  - destruct cr; vm_compute; reflexivity.
  - apply increasingb_sound. destruct cr; vm_compute; reflexivity.
  - destruct cr; vm_compute; reflexivity.
Qed.

End GenbagFacts.

(** ** The bag generators when library calls fail *)

Section GenbagFailures.

Import Genbag PyNum.

Lemma for_each_ext {W A} (xs : list A) (f g : A -> M W unit) :
  (forall x w, f x w = g x w) ->
  forall w, for_each xs f w = for_each xs g w.
Proof.
  intros E. induction xs as [| x xs IH]; intros w; cbn [for_each].
  - reflexivity.
  - unfold bind. rewrite E. destruct (g x w) as [[[] | e] w']; auto.
Qed.

Lemma for_each_app {W A} (xs ys : list A) (f : A -> M W unit) (w : W) :
  for_each (xs ++ ys) f w = (for_each xs f ;; for_each ys f) w.
Proof.
  revert w. induction xs as [| x xs IH]; intros w; cbn [for_each app].
  - reflexivity.
  - unfold bind. destruct (f x w) as [[[] | e] w']; [| reflexivity].
    rewrite IH. reflexivity.
Qed.

Lemma for_each_map {W A B} (g : A -> B) (xs : list A) (f : B -> M W unit) (w : W) :
  for_each (map g xs) f w = for_each xs (fun x => f (g x)) w.
Proof.
  revert w. induction xs as [| x xs IH]; intros w; cbn [for_each map].
  - reflexivity.
  - unfold bind. destruct (f (g x) w) as [[[] | e] w']; auto.
Qed.

(** A loop whose timestamps all exist is the loop over the timestamps. *)
Lemma for_each_stamped {W} (k : PyNum.t -> M W unit) (xs : list Z) :
  forall ts, map loop_stamp xs = map Some ts ->
  forall w, for_each xs (fun i => t <- num (loop_stamp i) ;; k t) w
            = for_each ts k w.
Proof.
  induction xs as [| x xs IH]; intros [| t ts] E w; try discriminate E.
  - reflexivity.
  - cbn [map] in E. injection E as Ex Exs.
    cbn [for_each]. unfold bind at 1 2. rewrite Ex. cbn [num ret].
    unfold bind at 2.
    destruct (k t w) as [[[] | e] w']; [| reflexivity].
    now apply IH.
Qed.

Lemma loop_stamps_computed : map loop_stamp (range 0 239) = map Some loop_stamps.
Proof. vm_compute. reflexivity. Qed.

Lemma bind_congr {W A B} (m m' : M W A) (k k' : A -> M W B) :
  (forall w, m w = m' w) -> (forall a w, k a w = k' a w) ->
  forall w, bind m k w = bind m' k' w.
Proof.
  intros Em Ek w. unfold bind. rewrite Em.
  destruct (m' w) as [[a | e] w']; auto.
Qed.

Lemma for_each_single {W A} (x : A) (f : A -> M W unit) (w : W) :
  for_each [x] f w = f x w.
Proof.
  cbn [for_each]. unfold bind, ret. destruct (f x w) as [[[] | e] w']; reflexivity.
Qed.

(** The [try] block of [genbag_twist.py] is its writes, one after the
    other. *)
Lemma genbag_twist_try_items (env : Env) (w : World) :
  genbag_twist_try env 0%nat 1%nat w = for_each twist_items (write_item env) w.
Proof.
  unfold twist_items, genbag_twist_try.
  rewrite for_each_app. revert w. apply bind_congr; [intros w | intros [] w].
  - rewrite for_each_single. reflexivity.
  - rewrite for_each_app. revert w. apply bind_congr; [intros w | intros [] w].
    + rewrite for_each_map.
      rewrite <- (for_each_stamped
                    (fun t => bag_write env "/turtle1/cmd_vel" 1%nat (from_sec t))
                    (range 0 239) loop_stamps loop_stamps_computed).
      apply for_each_ext. intros i w'. unfold loop_stamp, bind.
      destruct (mul (PyFloat 0.01) (PyInt i)) as [d |]; reflexivity.
    + rewrite for_each_single. reflexivity.
Qed.

Lemma count_writes_snoc (cs : list BagCall) (it : Item) :
  List.length (filter is_write (cs ++ [call_of it]))
  = S (List.length (filter is_write cs)).
Proof.
  rewrite filter_app, length_app. cbn. lia.
Qed.

(** A run of writes, whichever of them raise: the calls made are those up
    to and with the first one to raise, the records in the bag those
    before it, and the heap is as it was. *)
Lemma write_items_run (env : Env) (items : list Item) :
  forall w,
    Forall (valid (heap w)) items ->
    let j := returned (write_raises env)
               (List.length (filter is_write (calls w))) (List.length items) in
    for_each items (write_item env) w
    = (if (j <? List.length items)%nat
       then Raise (LibraryError "write") else Ok tt,
       {| heap := heap w;
          calls := calls w ++ map call_of (firstn (S j) items);
          written := written w ++ map record_of (firstn j items) |}).
Proof.
  induction items as [| it items IH]; intros w Hv; cbv zeta.
  - destruct w as [h cs wr]. cbn. now rewrite !app_nil_r.
  - apply Forall_cons_iff in Hv as [Hit Hitems].
    cbn [for_each List.length returned]. unfold bind at 1.
    unfold write_item at 1, bag_write, bind at 1, get.
    unfold valid in Hit. rewrite Hit.
    unfold bind, log_call, modify, raise.
    destruct (write_raises env (List.length (filter is_write (calls w)))) eqn:E.
    + cbn. now rewrite app_nil_r.
    + cbn [fst snd heap calls written].
      specialize (IH {| heap := heap w;
                        calls := calls w ++ [call_of it];
                        written := written w ++ [record_of it] |} Hitems).
      cbv zeta in IH. cbn [heap calls written] in IH.
      rewrite count_writes_snoc in IH.
      change (Call_write (item_topic it) (item_ref it) (item_msg it) (item_t it))
        with (call_of it).
      change (item_topic it, item_msg it, item_t it) with (record_of it).
      rewrite IH. cbn [firstn map]. rewrite <- !app_assoc. reflexivity.
Qed.

(** [try: body finally: bag.close()], in full: the close comes after
    whatever the body did, and its exception, if any, is the one that
    leaves the statement. *)
Lemma try_finally_bag_close_run {A} (env : Env) (body : M World A) (w : World) :
  try_finally body (bag_close env) w
  = (if close_raises env then Raise (LibraryError "close") else fst (body w),
     {| heap := heap (snd (body w));
        calls := calls (snd (body w)) ++ [Call_close];
        written := written (snd (body w)) |}).
Proof.
  unfold try_finally, bag_close, bind, log_call, modify.
  destruct (body w) as [r w']. destruct (close_raises env); reflexivity.
Qed.

Lemma twist_items_valid : Forall (valid [twist_msg1; twist_msg2]) twist_items.
Proof.
  unfold twist_items.
  apply Forall_app; split; [| apply Forall_app; split].
  - repeat constructor.
  - apply Forall_map, Forall_forall. intros t _. reflexivity.
  - repeat constructor.
Qed.

Lemma twist_items_length : List.length twist_items = 241%nat.
Proof. reflexivity. Qed.

(** A run of [genbag_twist.py] whose bag opens, in closed form, for every
    choice of the writes that raise and of what the close does. *)
Lemma genbag_twist_run (wr : nat -> bool) (cr : bool) :
  let j := returned wr 0 241 in
  run genbag_twist
      {| Bag_raises := false; write_raises := wr; close_raises := cr |}
  = (if cr then Raise (LibraryError "close")
     else if (j <? 241)%nat then Raise (LibraryError "write") else Ok tt,
     {| heap := [twist_msg1; twist_msg2];
        calls := Call_Bag "./twist.bag" "w"
                 :: map call_of (firstn (S j) twist_items) ++ [Call_close];
        written := map record_of (firstn j twist_items) |}).
Proof.
  cbv zeta.
  set (env := {| Bag_raises := false; write_raises := wr; close_raises := cr |}).
  change (run genbag_twist env)
    with (try_finally (genbag_twist_try env 0%nat 1%nat) (bag_close env) twist_start).
  rewrite try_finally_bag_close_run, genbag_twist_try_items.
  rewrite (write_items_run env twist_items twist_start twist_items_valid).
  rewrite twist_items_length. reflexivity.
Qed.

Lemma writes_of_calls (path mode : string) (items : list Item) :
  filter is_write (Call_Bag path mode :: map call_of items ++ [Call_close])
  = map call_of items.
Proof.
  cbn [filter is_write]. rewrite filter_app. cbn. rewrite app_nil_r.
  induction items as [| it items IH]; cbn; [reflexivity | now rewrite IH].
Qed.

Lemma Forall_firstn {A} (P : A -> Prop) (n : nat) (l : list A) :
  Forall P l -> Forall P (firstn n l).
Proof.
  intros H. revert n. induction H as [| a l Ha _ IH]; intros [| n]; cbn;
    constructor; auto.
Qed.

Lemma StronglySorted_firstn {A} (R : A -> A -> Prop) (n : nat) (l : list A) :
  StronglySorted R l -> StronglySorted R (firstn n l).
Proof.
  intros H. revert n. induction H as [| a l _ IH Ha]; intros [| n]; cbn;
    constructor; auto using Forall_firstn.
Qed.

Lemma twist_stamps_increase :
  increasingb (stamps (map record_of twist_items)) = true.
Proof. vm_compute. reflexivity. Qed.

Lemma returned_le (wr : nat -> bool) (n : nat) :
  forall k, (returned wr k n <= n)%nat.
Proof.
  induction n as [| n IH]; intros k; cbn [returned]; [lia |].
  destruct (wr k); [lia |]. specialize (IH (S k)). lia.
Qed.

(** All [n] calls return exactly when none of them is one that raises. *)
Lemma returned_all (wr : nat -> bool) (n : nat) :
  forall k,
    returned wr k n = n
    <-> (forall i, (i < n)%nat -> wr (k + i)%nat = false).
Proof.
  induction n as [| n IH]; intros k; cbn [returned].
  - split; [intros _ i Hi; lia | reflexivity].
  - destruct (wr k) eqn:E.
    + split; [discriminate |].
      intros H. specialize (H 0%nat). rewrite Nat.add_0_r in H.
      rewrite H in E by lia. discriminate E.
    + split.
      * intros H i Hi. injection H as H'. destruct i as [| i].
        -- now rewrite Nat.add_0_r.
        -- rewrite Nat.add_succ_r. apply (proj1 (IH (S k)) H'). lia.
      * intros H. f_equal. apply IH. intros i Hi.
        specialize (H (S i)). rewrite Nat.add_succ_r in H. apply H. lia.
Qed.

(** X1.  Whichever writes raise, the bag the twist generator leaves is a
    prefix of the bag of a run without failure: the records of the writes
    that returned before the first one to raise, in the same order.  The
    write that raises is the last one attempted. *)
Theorem genbag_twist_bag_is_prefix (wr : nat -> bool) (cr : bool) :
  let env := {| Bag_raises := false; write_raises := wr; close_raises := cr |} in
  let j := returned wr 0 241 in
  let w := snd (run genbag_twist env) in
  let full := snd (run genbag_twist no_failure) in
  written w = firstn j (written full)
  /\ filter is_write (calls w) = firstn (S j) (filter is_write (calls full))
  /\ (j <= 241)%nat.
Proof.
  cbv zeta. unfold no_failure.
  rewrite (genbag_twist_run wr cr), (genbag_twist_run (fun _ => false) false).
  cbn [snd written calls]. rewrite !writes_of_calls.
  change (returned (fun _ : nat => false) 0 241) with 241%nat.
  rewrite !(firstn_all2 (n := 241)), !(firstn_all2 (n := 242))
    by (rewrite twist_items_length; lia).
  rewrite !firstn_map. repeat split. apply returned_le.
Qed.

(** X2.  The twist generator ends normally exactly when the close does not
    raise and none of its 241 writes does.  Otherwise what leaves the script
    is the library's exception, the one of the close if the close raises:
    the script itself never fails, on a reference or on its arithmetic. *)
Theorem genbag_twist_outcome (wr : nat -> bool) (cr : bool) :
  let r := fst (run genbag_twist
                  {| Bag_raises := false; write_raises := wr; close_raises := cr |}) in
  (r = Ok tt <-> cr = false /\ forall k, (k < 241)%nat -> wr k = false)
  /\ (r = Ok tt \/ r = Raise (LibraryError "write")
      \/ r = Raise (LibraryError "close"))
  /\ (cr = true -> r = Raise (LibraryError "close")).
Proof.
  cbv zeta. rewrite (genbag_twist_run wr cr). cbn [fst].
  pose proof (returned_le wr 241 0) as Hle.
  pose proof (returned_all wr 241 0) as Hall. cbn [Nat.add] in Hall.
  destruct cr.
  - split; [split | split; auto].
    + discriminate.
    + intros [E _]. discriminate E.
  - destruct (returned wr 0 241 <? 241)%nat eqn:E.
    + apply Nat.ltb_lt in E. split; [split | split; [auto | discriminate]].
      * discriminate.
      * intros [_ H]. apply Hall in H. lia.
    + apply Nat.ltb_ge in E. split; [split | split; [auto | discriminate]].
      * intros _. split; [reflexivity |]. apply Hall. lia.
      * reflexivity.
Qed.

(** X3.  Whichever writes raise, the timestamps of the records the twist
    generator has put in the bag are strictly increasing. *)
Theorem genbag_twist_stamps_increase_on_failure (wr : nat -> bool) (cr : bool) :
  StronglySorted PyNum.lt
    (stamps (written (snd (run genbag_twist
       {| Bag_raises := false; write_raises := wr; close_raises := cr |})))).
Proof.
  rewrite (genbag_twist_run wr cr). cbn [snd written].
  unfold stamps. rewrite <- !firstn_map.
  apply StronglySorted_firstn, increasingb_sound, twist_stamps_increase.
Qed.

(** X4.  A run of the string generator whose bag opens, in full.  The
    write is attempted once; if it raises the bag stays empty, and it is
    closed all the same.  The script ends normally only if neither call
    raises, and an exception of the close takes the place of the one of the
    write. *)
Theorem genbag_string_run (wr : nat -> bool) (cr : bool) :
  run genbag_string
      {| Bag_raises := false; write_raises := wr; close_raises := cr |}
  = (if cr then Raise (LibraryError "close")
     else if wr 0%nat then Raise (LibraryError "write") else Ok tt,
     {| heap := [String_ "Dear turtle, please make a circle. Thanks!"];
        calls := [Call_Bag "./objective_string.bag" "w";
                  Call_write "/turtle1/cmd" 0%nat
                    (String_ "Dear turtle, please make a circle. Thanks!")
                    (from_sec (PyFloat 0.1));
                  Call_close];
        written := if wr 0%nat then []
                   else [("/turtle1/cmd",
                          String_ "Dear turtle, please make a circle. Thanks!",
                          from_sec (PyFloat 0.1))] |}).
Proof.
  unfold run, genbag_string, genbag_string_try, try_finally, bind, rosbag_Bag,
    new, bag_write, bag_close, log_call, modify, get, ret, raise.
  cbn. destruct (wr 0%nat), cr; reflexivity.
Qed.

End GenbagFailures.

(** ** The subscriber over whole runs *)

Section MqttcRuns.

Import Mqttc PyVal Text.

Lemma packet_calls_repeat (ps : list Packet) :
  flat_map packet_calls ps
  = repeat (Call_subscribe "digitaltwin") (connacks ps).
Proof.
  unfold connacks.
  induction ps as [| [flags rc | msg] ps IH]; cbn; [reflexivity | | assumption].
  now rewrite IH.
Qed.




(** X6.  When [connect] raises, the script stops there: nothing has been
    printed, the loop has not been entered, no subscription was asked for,
    and the one call the client has received is that connect. *)
Theorem connect_failure_stops_script
  (argv : list string) (enc : Encoding) (ps : list Packet) :
  let w := snd (run {| sys_argv := argv; stdout_encoding := enc;
                       connect_raises := true; net := ps |}) in
  stdout w = []
  /\ calls w = [Call_connect (fst (target argv)) (snd (target argv)) 60]
  /\ subscriptions (calls w) = [].
Proof.
  cbv zeta. rewrite run_closed_form.
  cbn [sys_argv stdout_encoding connect_raises net].
  destruct (target argv) as [host port]. repeat split.
Qed.

Lemma served_texts (enc : Encoding) (ps : list Packet) :
  Forall2 (fun p t => packet_text enc p = Ok t) (served enc ps) (texts enc ps).
Proof.
  unfold texts.
  induction ps as [| p ps IH]; cbn [served]; [constructor |].
  destruct (packet_text enc p) as [t |] eqn:E; [| constructor].
  cbn [flat_map]. rewrite E. cbn [app]. constructor; assumption.
Qed.

(** The packets served are the ones before the first whose callback
    raises. *)
Lemma served_prefix (enc : Encoding) (ps : list Packet) :
  exists rest,
    ps = served enc ps ++ rest
    /\ match rest with
       | [] => stopped enc ps = None
       | p :: _ => exists e, packet_text enc p = Raise e
                             /\ stopped enc ps = Some e
       end.
Proof.
  induction ps as [| p ps [rest [Hps Hrest]]]; cbn [served stopped].
  - exists []. split; reflexivity.
  - destruct (packet_text enc p) as [t | e] eqn:E.
    + exists rest. split; [cbn [app]; now rewrite <- Hps | exact Hrest].
    + exists (p :: ps). split; [reflexivity |]. now exists e.
Qed.

(** The text of a packet is one line, unless it is a message with a line
    feed in its topic. *)
Lemma packet_text_single_line (enc : Encoding) (p : Packet) (t : string) :
  packet_text enc p = Ok t ->
  single_line t
  = match p with
    | CONNACK _ _ => true
    | PUBLISH msg => single_line (string_of_list_byte (raw_topic msg))
    end.
Proof.
  destruct p as [flags rc | msg]; cbn [packet_text].
  - intros [= <-].
    apply printable_single_line, printable_connect_text.
  - unfold decode. destruct (well_formed (raw_topic msg)); [| discriminate].
    destruct (encodable enc _); [| discriminate].
    intros [= <-]. apply single_line_message_text.
Qed.

(** X7.  When [connect] returns, the run makes one call of [print] for each
    packet served, in the order of arrival and with the text of the
    callback of that packet; the packets served are those before the first
    message whose callback raises, for which, as for the ones after it,
    nothing is printed.  The text of a connection answer is one line, the
    one of a message is one line exactly when its topic holds no line
    feed.  The calls on the client are the connect, then the loop, then one
    subscription to ['digitaltwin'] for each connection answer served.
    Both callbacks are still set at the end. *)
Theorem run_prints_one_text_per_packet_served
  (argv : list string) (enc : Encoding) (ps : list Packet) :
  let w := snd (run {| sys_argv := argv; stdout_encoding := enc;
                       connect_raises := false; net := ps |}) in
  Forall2 (fun p t => packet_text enc p = Ok t) (served enc ps) (stdout w)
  /\ List.length (stdout w) = List.length (served enc ps)
  /\ (exists rest,
        ps = served enc ps ++ rest
        /\ match rest with
           | [] => stopped enc ps = None
           | p :: _ => exists e, packet_text enc p = Raise e
                                 /\ stopped enc ps = Some e
           end)
  /\ (forall p t,
        packet_text enc p = Ok t ->
        single_line t
        = match p with
          | CONNACK _ _ => true
          | PUBLISH msg => single_line (string_of_list_byte (raw_topic msg))
          end)
  /\ calls w
     = Call_connect (fst (target argv)) (snd (target argv)) 60
       :: Call_loop_forever
       :: repeat (Call_subscribe "digitaltwin") (connacks (served enc ps))
  /\ client_on_connect w = Some on_connect_ref
  /\ client_on_message w = Some on_message_ref.
Proof.
  cbv zeta. rewrite run_closed_form.
  cbn [sys_argv stdout_encoding connect_raises net].
  destruct (target argv) as [host port].
  cbn [snd fst listening stdout calls client_on_connect client_on_message].
  rewrite packet_calls_repeat.
  pose proof (served_texts enc ps) as Hst.
  split; [exact Hst |].
  split; [symmetry; exact (Forall2_length Hst) |].
  split; [apply served_prefix |].
  split; [apply packet_text_single_line |].
  repeat split.
Qed.

Lemma Z_to_int_proper (n : Z) :
  Z.to_int n <> Decimal.Pos Decimal.Nil /\ Z.to_int n <> Decimal.Neg Decimal.Nil.
Proof.
  destruct n as [| p | p]; cbn; split; try discriminate;
    intros [= H]; exact (DecimalPos.Unsigned.to_uint_nonnil p H).
Qed.

(** [str] tells integers apart. *)
Lemma str_int_inj (n m : Z) : str (VInt n) = str (VInt m) -> n = m.
Proof.
  cbn [str]. intros H.
  destruct (Z_to_int_proper n) as [Hn1 Hn2].
  destruct (Z_to_int_proper m) as [Hm1 Hm2].
  pose proof (NilZero.isi (Z.to_int n) Hn1 Hn2) as En.
  pose proof (NilZero.isi (Z.to_int m) Hm1 Hm2) as Em.
  rewrite H, Em in En. injection En as En.
  rewrite <- (DecimalZ.of_to n), <- (DecimalZ.of_to m). now f_equal.
Qed.

(** X8.  The text the connect callback prints tells the result code: two
    different integer codes never give the same output, on any output
    encoding. *)
Theorem on_connect_line_tells_rc
  (enc : Encoding) (userdata flags : PyVal.t) (n m : Z) (w : World) :
  n <> m ->
  stdout (snd (on_connect enc userdata flags n w))
  <> stdout (snd (on_connect enc userdata flags m w)).
Proof.
  intros Hnm H. rewrite !on_connect_run in H. cbn [snd stdout] in H.
  apply app_inv_head in H. injection H as H.
  apply Hnm, str_int_inj. exact H.
Qed.

Lemma on_connect_line_tells_rc_witness :
  0 <> 5
  /\ stdout (snd (on_connect enc_ascii VNone VNone 0 (fresh [])))
     <> stdout (snd (on_connect enc_ascii VNone VNone 5 (fresh []))).
Proof.
  split; [discriminate |].
  apply (on_connect_line_tells_rc enc_ascii VNone VNone 0 5 (fresh [])).
  discriminate.
Defined.

Lemma unrepr_repr_byte (q : ascii) (x : byte) (s : string) :
  q = squote \/ q = dquote ->
  bytes_unrepr_byte (bytes_repr_byte q x ++ s) = Some (x, s).
Proof.
  intros [-> | ->]; destruct x; reflexivity.
Qed.

(** The inside of a bytes literal, up to its closing quote, is read back
    in one way only. *)
Lemma bytes_repr_inside_inj (q : ascii) :
  q = squote \/ q = dquote ->
  forall b1 b2,
    (String.concat "" (map (bytes_repr_byte q) b1) ++ String q ""
     = String.concat "" (map (bytes_repr_byte q) b2) ++ String q "")%string ->
    b1 = b2.
Proof.
  intros Hq.
  assert (Hend : forall y b,
            (String q ""
             = String.concat "" (map (bytes_repr_byte q) (y :: b)) ++ String q "")%string
            -> False).
  { intros y b H. cbn [map] in H. rewrite concat_cons, string_app_assoc in H.
    apply (f_equal bytes_unrepr_byte) in H.
    rewrite (unrepr_repr_byte q y _ Hq) in H.
    destruct Hq as [-> | ->]; cbn in H; injection H as _ H;
      destruct (String.concat "" (map _ b)); discriminate H. }
  induction b1 as [| x b1 IH]; intros [| y b2] H.
  - reflexivity.
  - destruct (Hend y b2 H).
  - destruct (Hend x b1 (eq_sym H)).
  - cbn [map] in H. rewrite !concat_cons, !string_app_assoc in H.
    apply (f_equal bytes_unrepr_byte) in H.
    rewrite !(unrepr_repr_byte q _ _ Hq) in H.
    injection H as -> H. f_equal. now apply IH.
Qed.

(** [str] tells bytes values apart. *)
Lemma bytes_repr_inj (b1 b2 : list byte) :
  bytes_repr b1 = bytes_repr b2 -> b1 = b2.
Proof.
  unfold bytes_repr. intros H. injection H as Hq H.
  rewrite <- Hq in H.
  exact (bytes_repr_inside_inj _ (bytes_quote_cases b1) b1 b2 H).
Qed.

(** X9.  The text the message callback prints tells the payload of a
    topic: when a message is printed, a message of the same topic with
    different payload bytes is printed too, and never with the same
    output, whatever bytes the payloads hold. *)
Theorem on_message_line_tells_payload
  (enc : Encoding) (userdata : PyVal.t) (tp b1 b2 : list byte) (w : World) :
  b1 <> b2 ->
  fst (on_message enc userdata {| raw_topic := tp; payload := b1 |} w) = Ok tt ->
  fst (on_message enc userdata {| raw_topic := tp; payload := b2 |} w) = Ok tt
  /\ stdout (snd (on_message enc userdata {| raw_topic := tp; payload := b1 |} w))
     <> stdout (snd (on_message enc userdata {| raw_topic := tp; payload := b2 |} w)).
Proof.
  intros Hb. rewrite !on_message_run. cbn [packet_text raw_topic payload].
  destruct (decode tp) as [t |]; [| discriminate].
  destruct (encodable enc t); [| discriminate].
  intros _. split; [reflexivity |].
  cbn [snd stdout]. intros H. apply app_inv_head in H. injection H as H.
  apply string_app_inv_head in H.
  apply (string_app_inv_head " data: ") in H.
  apply Hb, bytes_repr_inj. exact H.
Qed.

Lemma on_message_line_tells_payload_witness :
  [x09] <> [x5c; x74]
  /\ fst (on_message enc_utf_8 VNone
            {| raw_topic := list_byte_of_string "digitaltwin"; payload := [x09] |}
            (fresh [])) = Ok tt
  /\ fst (on_message enc_utf_8 VNone
            {| raw_topic := list_byte_of_string "digitaltwin";
               payload := [x5c; x74] |}
            (fresh [])) = Ok tt
  /\ stdout (snd (on_message enc_utf_8 VNone
                    {| raw_topic := list_byte_of_string "digitaltwin";
                       payload := [x09] |} (fresh [])))
     <> stdout (snd (on_message enc_utf_8 VNone
                    {| raw_topic := list_byte_of_string "digitaltwin";
                       payload := [x5c; x74] |} (fresh []))).
Proof.
  assert (Hb : [x09] <> [x5c; x74]) by discriminate.
  assert (Hok : fst (on_message enc_utf_8 VNone
                       {| raw_topic := list_byte_of_string "digitaltwin";
                          payload := [x09] |} (fresh [])) = Ok tt)
    by reflexivity.
  split; [exact Hb |]. split; [exact Hok |].
  exact (on_message_line_tells_payload enc_utf_8 VNone
           (list_byte_of_string "digitaltwin") [x09] [x5c; x74] (fresh [])
           Hb Hok).
Defined.

End MqttcRuns.
